(** * smartspot: the spot-price chart pipeline and the upstream proxy

    A shallow embedding of [src/components/chartView.tsx] (the memoised
    stages of [ChartView]), of [src/app/api/spot/route.ts] (the [GET]
    handler) and of [src/app/page.tsx] (the query of the page and
    [loadPrices]), followed by the properties proved about them.

    Conventions of the embedding:
    - epoch timestamps ([Date.getTime()]) and every quantity derived from
      them by integer arithmetic are [Z]; all values that occur are far
      below 2^53, where the arithmetic of JavaScript numbers on integers is
      exact;
    - prices are rationals [Q], of which only the order is used;
      [barSize_binary64] is the layout sizer on binary64 numbers with their
      rounding, [barSize] the same sizer in exact arithmetic, and the
      average of [stats] takes the rounding as a parameter;
    - [null] and [undefined] are [None];
    - what the sources take from the JavaScript runtime ([Date] in the local
      time zone, [Intl] formatters, [Number], the case mappings and [trim]
      of strings, [fetch]) is a parameter of the development, see [Runtime],
      [Zone], [Host] and [StringRuntime];
    - [Runtime] has the local time at one fixed offset from UTC; [Zone] is
      a time zone whose offset changes, and the axis ticks are stated for
      it ([ZonedDate], [ZonedTicks]). *)

From Stdlib Require Import ZArith QArith Qround Qminmax Ascii String Floats
  Lqa.
From stdpp Require Import base gmap strings list sorting pretty.
From Equations Require Import Equations.
Close Scope Q_scope.
Local Open Scope Z_scope.

(** ** The JavaScript runtime *)

Module Js.

(** [Array.prototype.sort(compare)]: a stable sort that looks only at the
    sign of [compare a b]; [Gt] stands for a positive result.  Insertion
    from the right keeps equal elements in their original order. *)
Section Sort.
Context {A : Type} (compare : A → A → comparison).

Fixpoint insert (x : A) (l : list A) : list A :=
  match l with
  | [] => [x]
  | y :: l' =>
      match compare x y with
      | Gt => y :: insert x l'
      | _ => x :: y :: l'
      end
  end.

Definition sort (l : list A) : list A := foldr insert [] l.

(** [a] may stand before [b]: the comparator does not ask for a swap. *)
Definition precedes (a b : A) : Prop := compare a b ≠ Gt.
End Sort.

(** The sign of a numeric comparator result. *)
Definition signZ (z : Z) : comparison := z ?= 0.
Definition signQ (q : Q) : comparison := (q ?= 0)%Q.

(** [Math.round]: the nearest integer, ties towards +infinity. *)
Definition Math_round (x : Q) : Z := Qfloor (x + (1 # 2))%Q.

(** [Math.floor]. *)
Definition Math_floor (x : Q) : Z := Qfloor x.

(** [String.prototype.toUpperCase] and [toLowerCase] as they are on strings
    of ASCII characters: the ASCII letters are mapped.  What the two do to
    other characters is left to the host, see [SpotRoute.Host]. *)
Definition upper_ascii (c : ascii) : ascii :=
  let n := nat_of_ascii c in
  if ((97 <=? n) && (n <=? 122))%nat then ascii_of_nat (n - 32) else c.

Definition lower_ascii (c : ascii) : ascii :=
  let n := nat_of_ascii c in
  if ((65 <=? n) && (n <=? 90))%nat then ascii_of_nat (n + 32) else c.

Fixpoint string_map (f : ascii → ascii) (s : string) : string :=
  match s with
  | EmptyString => EmptyString
  | String c s' => String (f c) (string_map f s')
  end.

Definition toUpperCase : string → string := string_map upper_ascii.
Definition toLowerCase : string → string := string_map lower_ascii.

(** Every character of the string is an ASCII character. *)
Fixpoint isAscii (s : string) : bool :=
  match s with
  | EmptyString => true
  | String c s' => (nat_of_ascii c <? 128)%nat && isAscii s'
  end.

(** [String(n).padStart(2, "0")] for an integer [n]. *)
Definition padStart2 (s : string) : string :=
  match s with
  | String c EmptyString => String "0" (String c EmptyString)
  | EmptyString => "00"
  | _ => s
  end.

(** What the chart takes from the host: the local time zone, modelled as a
    fixed offset from UTC in milliseconds (no daylight-saving change inside
    the charted range), [Date] parsing ([None] is an invalid date) and the
    [Intl.DateTimeFormat] instances of the module. *)
Class Runtime := {
  tzOffset : Z;
  Date_parse : string → option Z;
  timeFormatter : Z → string;
  weekdayFormatter : Z → string;
  weekdayShortFormatter : Z → string;
  tooltipTimeFormatter : Z → string;
}.

Section Date.
Context `{Runtime}.

Definition msPerHour : Z := 3600000.
Definition msPerDay : Z := 86400000.

Definition localMs (t : Z) : Z := t + tzOffset.

(** [date.getHours()]. *)
Definition getHours (t : Z) : Z := (localMs t / msPerHour) mod 24.

(** [date.setMinutes(0, 0, 0)]: back to the start of the local hour. *)
Definition setMinutes000 (t : Z) : Z := t - localMs t mod msPerHour.

(** [date.setHours(h)]: the hour field is replaced, minutes and below are
    kept; an hour outside 0..23 carries into the date. *)
Definition setHours (t h : Z) : Z := t + (h - getHours t) * msPerHour.

(** Local calendar date from the day number (proleptic Gregorian). *)
Definition localDay (t : Z) : Z := localMs t / msPerDay.

Definition civil (t : Z) : Z * Z * Z :=
  let z := localDay t + 719468 in
  let era := z / 146097 in
  let doe := z - era * 146097 in
  let yoe := (doe - doe / 1460 + doe / 36524 - doe / 146096) / 365 in
  let doy := doe - (365 * yoe + yoe / 4 - yoe / 100) in
  let mp := (5 * doy + 2) / 153 in
  let d := doy - (153 * mp + 2) / 5 + 1 in
  let m := if mp <? 10 then mp + 3 else mp - 9 in
  let y := yoe + era * 400 + (if m <=? 2 then 1 else 0) in
  (y, m, d).

Definition getFullYear (t : Z) : Z := (civil t).1.1.
(** [date.getMonth()] counts from 0. *)
Definition getMonth (t : Z) : Z := (civil t).1.2 - 1.
Definition getDate (t : Z) : Z := (civil t).2.
End Date.

(** *** [Date] in a time zone whose offset changes

    [Date] as ECMAScript specifies it for the time zone of the host.  The
    host supplies [LocalTZA(t, isUTC)]: for [isUTC = true] the offset of
    local time from UTC at the instant [t]; for [isUTC = false] the offset
    with which the local time value [t] is read back, which at a change of
    the offset is the offset before the change, for a local time that is
    skipped as for one that occurs twice.  [TimeClip] is left out: the
    values stay far inside its range. *)
Class Zone := {
  LocalTZA : Z → bool → Z;
}.

Module ZonedDate.
Section ZonedDate.
Context `{Zone}.

Definition LocalTime (t : Z) : Z := t + LocalTZA t true.
Definition UTC (t : Z) : Z := t - LocalTZA t false.
Definition Day (t : Z) : Z := t / msPerDay.
Definition HourFromTime (t : Z) : Z := (t / msPerHour) mod 24.

(** [date.getHours()]. *)
Definition getHours (t : Z) : Z := HourFromTime (LocalTime t).

(** [date.setMinutes(0, 0, 0)]:
    [UTC(MakeDate(Day(t), MakeTime(HourFromTime(t), 0, 0, 0)))] for the
    local time [t]. *)
Definition setMinutes000 (t : Z) : Z :=
  let local := LocalTime t in
  UTC (Day local * msPerDay + HourFromTime local * msPerHour).

(** [date.setHours(h)]:
    [UTC(MakeDate(Day(t), MakeTime(h, MinFromTime(t), SecFromTime(t),
    msFromTime(t))))] for the local time [t]. *)
Definition setHours (t h : Z) : Z :=
  let local := LocalTime t in
  UTC (Day local * msPerDay + h * msPerHour + local mod msPerHour).
End ZonedDate.
End ZonedDate.

(** The outcome of a loop that is given [fuel] for that many tests of its
    condition. *)
Inductive Run (A : Type) :=
| OutOfFuel
| Returned (value : A).
Arguments OutOfFuel {A}.
Arguments Returned {A} value.

End Js.

(** ** [src/components/chartView.tsx] *)

Module ChartView.
Import Js.

Record SpotPrice := {
  DateTime : option string;
  PriceNoTax : option Q;
  PriceWithTax : option Q;
  Rank : option Q;
}.

Record ChartDatum := {
  label : string;
  fullLabel : string;
  price : Q;
  timestamp : Z;
  dayKey : string;
  fill : option string;
}.

Module PRICE_COLORS.
Definition low : string := "#16a34a".
Definition mid : string := "#f59e0b".
Definition high : string := "#ef4444".
End PRICE_COLORS.

(** A day-change marker [{ x, label }]. *)
Record Marker := { marker_x : Z; marker_label : string }.

Definition capitalize (weekday : string) : string :=
  match weekday with
  | EmptyString => EmptyString
  | String c rest => String (upper_ascii c) rest
  end.

Section Pipeline.
Context `{Runtime}.

Definition formatDayKey (date : Z) : string :=
  let year := getFullYear date in
  let month := padStart2 (pretty (getMonth date + 1)) in
  let day := padStart2 (pretty (getDate date)) in
  pretty year +:+ "-" +:+ month +:+ "-" +:+ day.

Definition formatTooltipLabel (date : Z) : string :=
  let capitalized := capitalize (weekdayFormatter date) in
  let day := getDate date in
  let month := getMonth date + 1 in
  let time := tooltipTimeFormatter date in
  capitalized +:+ " " +:+ pretty day +:+ "." +:+ pretty month
    +:+ " " +:+ time.

Definition formatDayLineLabel (date : Z) : string :=
  let capitalized := capitalize (weekdayShortFormatter date) in
  let day := getDate date in
  let month := getMonth date + 1 in
  capitalized +:+ " " +:+ pretty day +:+ "." +:+ pretty month.

(** The callback of [.map] in [chartData]; [None] is the [null] that the
    following [.filter(Boolean)] removes. *)
Definition toDatum (useTax : bool) (valueMultiplier : Q)
    (item : option SpotPrice) : option ChartDatum :=
  match item with
  | None => None
  | Some item =>
      match DateTime item with
      | None | Some EmptyString => None
      | Some dateTime =>
          match (if useTax then PriceWithTax item else PriceNoTax item) with
          | None => None
          | Some rawPrice =>
              let price := (rawPrice * valueMultiplier)%Q in
              match Date_parse dateTime with
              | None => None
              | Some date =>
                  Some {| label := timeFormatter date;
                          fullLabel := formatTooltipLabel date;
                          price := price;
                          timestamp := date;
                          dayKey := formatDayKey date;
                          fill := None |}
              end
          end
      end
  end.

Definition chartData (data : option (list (option SpotPrice)))
    (useTax : bool) (valueMultiplier : Q) : list ChartDatum :=
  sort (λ a b, signZ (timestamp a - timestamp b))
    (omap (toDatum useTax valueMultiplier) (default [] data)).
End Pipeline.

(** The successive timestamp differences of [stepMinutes], before the
    filter: [chartData.slice(1).map((item, index) => ...)]. *)
Definition timestampDiffs (chartData : list ChartDatum) : list Z :=
  imap (λ index item,
          timestamp item - default 0 (timestamp <$> chartData !! index))
       (drop 1 chartData).

Definition stepMinutes (chartData : list ChartDatum) : Z :=
  if (length chartData <? 2)%nat then 60
  else
    let diffs := filter (λ diff, 0 < diff) (timestampDiffs chartData) in
    if (length diffs =? 0)%nat then 60
    else
      let diffs := sort (λ a b, signZ (a - b)) diffs in
      let median := default 0 (diffs !! (length diffs / 2)%nat) in
      let minutes := Math_round (inject_Z median / 60000)%Q in
      if minutes =? 0 then 60 else minutes.

Definition pointsPerHour (stepMinutes : Z) : Z :=
  Z.max 1 (Math_round (60 / inject_Z stepMinutes)%Q).

Definition stepMs (stepMinutes : Z) : Z := stepMinutes * 60 * 1000.

(** The first [forEach] of [coloredData]: points grouped by day key, each
    bucket in the order of [chartData]. *)
Definition grouped (chartData : list ChartDatum)
    : gmap string (list ChartDatum) :=
  foldl (λ grouped point,
           let bucket := default [] (grouped !! dayKey point) in
           <[dayKey point := bucket ++ [point]]> grouped)
        ∅ chartData.

Record DayMeta := {
  ranks : gmap Z Z;
  greenLimit : Z;
  yellowLimit : Z;
}.

(** [sorted.forEach((point, index) => ranks.set(point.timestamp, index))]
    on a fresh map: a later point with the same timestamp overwrites the
    rank of an earlier one. *)
Definition ranksOf (sorted : list ChartDatum) : gmap Z Z :=
  foldl (λ (ranks : gmap Z Z) entry,
           <[timestamp entry.2 := Z.of_nat entry.1]> ranks)
        ∅ (imap pair sorted).

(** The body of [grouped.forEach((points, dayKey) => ...)]. *)
Definition dayMetaOf (pointsPerHour : Z) (points : list ChartDatum)
    : DayMeta :=
  let sorted := sort (λ a b, signQ (price a - price b)) points in
  let ranks := ranksOf sorted in
  {| ranks := ranks;
     greenLimit := Z.min (Z.of_nat (length points)) (6 * pointsPerHour);
     yellowLimit := Z.min (Z.of_nat (length points)) (12 * pointsPerHour) |}.

Definition dayMeta (chartData : list ChartDatum) (pointsPerHour : Z)
    : gmap string DayMeta :=
  dayMetaOf pointsPerHour <$> grouped chartData.

Definition colorOf (dayMeta : gmap string DayMeta) (point : ChartDatum)
    : string :=
  let meta := dayMeta !! dayKey point in
  let rank := default 0 (meta ≫= λ m, ranks m !! timestamp point) in
  if rank <? default 0 (greenLimit <$> meta) then PRICE_COLORS.low
  else if rank <? default 0 (yellowLimit <$> meta) then PRICE_COLORS.mid
  else PRICE_COLORS.high.

Definition withFill (point : ChartDatum) (fill : string) : ChartDatum :=
  {| label := label point;
     fullLabel := fullLabel point;
     price := price point;
     timestamp := timestamp point;
     dayKey := dayKey point;
     fill := Some fill |}.

Definition coloredData (chartData : list ChartDatum) (pointsPerHour : Z)
    : list ChartDatum :=
  if (length chartData =? 0)%nat then []
  else
    let dayMeta := dayMeta chartData pointsPerHour in
    (λ point, withFill point (colorOf dayMeta point)) <$> chartData.

(** [now] is the value of [Date.now()] read inside the memo. *)
Definition visibleData (coloredData : list ChartDatum) (showPast : bool)
    (stepMs now : Z) : list ChartDatum :=
  if showPast then coloredData
  else filter (λ entry, now < timestamp entry + stepMs) coloredData.

Section Annotator.
Context `{Runtime}.

(** The [while] loop of [axisTicks], from the current value of [tick];
    it terminates because the number of two-hour steps left below
    [end_] goes down. *)
Equations? ticksLoop (end_ tick : Z) : list Z
    by wf (Z.to_nat ((end_ - tick) / (2 * msPerHour) + 1)) lt :=
  ticksLoop end_ tick with decide (tick <= end_) => {
    | left _ => tick :: ticksLoop end_ (setHours tick (getHours tick + 2));
    | right _ => [] }.
Proof.
  unfold setHours, msPerHour.
  replace (end_ - (tick + (getHours tick + 2 - getHours tick) * 3600000))
    with (end_ - tick + -1 * (2 * 3600000)) by lia.
  rewrite Z.div_add by lia.
  assert (0 <= (end_ - tick) / (2 * 3600000)) by (apply Z.div_pos; lia).
  lia.
Qed.

Definition firstTick (start : Z) : Z :=
  let tick := setMinutes000 start in
  let tick :=
    if tick <? start then setHours tick (getHours tick + 1) else tick in
  if negb (getHours tick mod 2 =? 0)
  then setHours tick (getHours tick + 1) else tick.

(** [None] is [undefined]. *)
Definition axisTicks (visibleData : list ChartDatum) : option (list Z) :=
  match visibleData, last visibleData with
  | first :: _, Some final =>
      let start := timestamp first in
      let end_ := timestamp final in
      Some (ticksLoop end_ (firstTick start))
  | _, _ => None
  end.

(** The state of the [for] loop of [dayChangeMarkers] is the pair of
    [markers] and [lastDay]. *)
Definition markerStep (halfStepMs : Z) (state : list Marker * string)
    (point : ChartDatum) : list Marker * string :=
  let '(markers, lastDay) := state in
  if decide (dayKey point ≠ lastDay) then
    let boundaryTimestamp := timestamp point in
    (markers ++ [{| marker_x := boundaryTimestamp - halfStepMs;
                    marker_label :=
                      formatDayLineLabel boundaryTimestamp |}],
     dayKey point)
  else (markers, lastDay).

(** [stepMs] is a multiple of 60000, so [stepMs / 2] is an integer. *)
Definition dayChangeMarkers (visibleData : list ChartDatum) (stepMs : Z)
    : list Marker :=
  match visibleData with
  | [] => []
  | first :: rest =>
      let halfStepMs := stepMs / 2 in
      (foldl (markerStep halfStepMs) ([], dayKey first) rest).1
  end.
End Annotator.

Definition nowLineTimestamp (visibleData : list ChartDatum) (now : Z)
    : option Z :=
  match visibleData, last visibleData with
  | first :: _, Some final =>
      let min := timestamp first in
      let max := timestamp final in
      if (now <? min) || (max <? now) then None else Some now
  | _, _ => None
  end.

(** The layout sizer in exact arithmetic.  [containerWidth] is [null] until
    the first resize observation; [count] is [visibleData.length].  The code
    rounds each operation to binary64, see [barSize_binary64] below: the two
    can differ by one where a rounding crosses a whole number. *)
Definition barSize (containerWidth : option Q) (count : nat) : option Z :=
  match containerWidth with
  | None => None
  | Some width =>
      if Qeq_bool width 0 || (count =? 0)%nat then None
      else
        let available := Qmax 0 (width - 16) in
        let perBar := (available / inject_Z (Z.of_nat count))%Q in
        Some (Z.max 1 (Math_floor (perBar * (92 # 100))%Q))
  end.

(** *** The layout sizer on binary64 numbers

    [barSize] once more, on the numbers of JavaScript and with their
    arithmetic: each of [-], [/] and [*] rounds to binary64. *)

(** A number without a fractional part, as [Math.floor] returns it: a whole
    number, an infinity or [NaN]. *)
Inductive Whole :=
| Integer (value : Z)
| Infinite (negative : bool)
| NotANumber.

(** [Math.floor]; the sign of a zero is dropped. *)
Definition Math_floor64 (x : float) : Whole :=
  match Prim2SF x with
  | S754_zero _ => Integer 0
  | S754_infinity negative => Infinite negative
  | S754_nan => NotANumber
  | S754_finite negative m e =>
      let v := if negative then Z.neg m else Z.pos m in
      Integer (if 0 <=? e then v * 2 ^ e else v / 2 ^ (- e))
  end.

(** [Math.max(1, n)] for a number without a fractional part. *)
Definition atLeastOne (n : Whole) : Whole :=
  match n with
  | Integer value => Integer (Z.max 1 value)
  | Infinite negative => if negative then Integer 1 else Infinite false
  | NotANumber => NotANumber
  end.

(** [Math.max(0, x)]: [NaN] for [NaN], and [+0] for [-0]. *)
Definition Math_max0 (x : float) : float :=
  if PrimFloat.is_nan x then x
  else if PrimFloat.ltb 0 x then x else 0%float.

(** The length of an array as a number. *)
Definition toNumber (count : nat) : float :=
  PrimFloat.of_uint63 (Uint63.of_Z (Z.of_nat count)).

(** [!containerWidth] holds for [null], for both zeros and for [NaN]; the
    last factor is the binary64 number written 0.92. *)
Definition barSize_binary64 (containerWidth : option float) (count : nat)
    : option Whole :=
  match containerWidth with
  | None => None
  | Some width =>
      if PrimFloat.is_zero width || PrimFloat.is_nan width
         || (count =? 0)%nat
      then None
      else
        let available := Math_max0 (PrimFloat.sub width 16) in
        let perBar := PrimFloat.div available (toNumber count) in
        Some (atLeastOne
                (Math_floor64 (PrimFloat.mul perBar 0x1.d70a3d70a3d71p-1)))
  end.

(** *** The rest of the component *)

(** What recharts hands to [hourTickFormatter]: no number at all, a number
    that is no valid time value (for instance [NaN]), or a time value. *)
Inductive TickValue :=
| NotNumber
| NotTime
| TimeValue (milliseconds : Z).


(** *** The axis ticks in a time zone whose offset changes

    [axisTicks] and [hourTickFormatter] once more, on [Date] as it is in
    any time zone.  Whether [tick.setHours(tick.getHours() + 2)] moves
    [tick] forward is then up to the zone, so the [while] loop is run with
    fuel. *)
Module ZonedTicks.
Section ZonedTicks.
Context `{Zone}.

Fixpoint ticksLoop (fuel : nat) (end_ tick : Z) : Run (list Z) :=
  match fuel with
  | O => OutOfFuel
  | S fuel =>
      if decide (tick <= end_) then
        match ticksLoop fuel end_
                (ZonedDate.setHours tick (ZonedDate.getHours tick + 2)) with
        | OutOfFuel => OutOfFuel
        | Returned ticks => Returned (tick :: ticks)
        end
      else Returned []
  end.

Definition firstTick (start : Z) : Z :=
  let tick := ZonedDate.setMinutes000 start in
  let tick :=
    if tick <? start
    then ZonedDate.setHours tick (ZonedDate.getHours tick + 1) else tick in
  if negb (ZonedDate.getHours tick mod 2 =? 0)
  then ZonedDate.setHours tick (ZonedDate.getHours tick + 1) else tick.

(** [None] is [undefined]. *)
Definition axisTicks (fuel : nat) (visibleData : list ChartDatum)
    : Run (option (list Z)) :=
  match visibleData, last visibleData with
  | first :: _, Some final =>
      let start := timestamp first in
      let end_ := timestamp final in
      match ticksLoop fuel end_ (firstTick start) with
      | OutOfFuel => OutOfFuel
      | Returned ticks => Returned (Some ticks)
      end
  | _, _ => Returned None
  end.

Definition hourTickFormatter (value : TickValue) : string :=
  match value with
  | NotNumber => ""
  | NotTime => ""
  | TimeValue date =>
      let hour := ZonedDate.getHours date in
      pretty hour
  end.
End ZonedTicks.
End ZonedTicks.

(** The summary above the chart, [{ min, max, avg }]; [None] is [null].
    [Math.min(...values)] and [Math.max(...values)] of a non-empty array
    fold the values from the first one on and are exact.  The additions and
    the division of [avg] each round their exact result to binary64:
    [round] is that rounding. *)
Record Stats := { stats_min : Q; stats_max : Q; stats_avg : Q }.

Section Summary.
Variable round : Q → Q.

Definition stats (visibleData : list ChartDatum) : option Stats :=
  let values := price <$> visibleData in
  match values with
  | [] => None
  | first :: rest =>
      let min := foldl Qmin first rest in
      let max := foldl Qmax first rest in
      let avg :=
        round (foldl (λ sum value, round (sum + value)) 0 values
               / inject_Z (Z.of_nat (length values)))%Q in
      Some {| stats_min := min; stats_max := max; stats_avg := avg |}
  end.
End Summary.

(** The [Cell] of a visible bar; [nowTimestamp] is the [Date.now()] of the
    render. *)
Definition isPast (showPast : bool) (nowTimestamp stepMs : Z)
    (entry : ChartDatum) : bool :=
  showPast && (timestamp entry + stepMs <=? nowTimestamp).

Definition fillOpacity (showPast : bool) (nowTimestamp stepMs : Z)
    (entry : ChartDatum) : Q :=
  if isPast showPast nowTimestamp stepMs entry then 45 # 100 else 1.

(** The two functions of [xDomain]; the chart applies them to the least and
    to the greatest timestamp of its data.  [stepMs] is a whole number of
    minutes in milliseconds, so halving it is exact. *)
Definition xDomain (stepMs : Z) : (Z → Z) * (Z → Z) :=
  let padding := stepMs / 2 in
  (λ min, min - padding, λ max, max + padding).

End ChartView.

(** ** [src/app/api/spot/route.ts] *)

Module SpotRoute.
Import Js.

Definition BASE_URL : string := "https://api.spot-hinta.fi".
Definition CACHE_SECONDS : Z := 60.

Inductive EndpointKey := today | dayForward | todayAndDayForward | justNow.

Definition ENDPOINTS (key : EndpointKey) : string :=
  match key with
  | today => "/Today"
  | dayForward => "/DayForward"
  | todayAndDayForward => "/TodayAndDayForward"
  | justNow => "/JustNow"
  end.

Definition TYPE_ALIASES : gmap string EndpointKey :=
  list_to_map
    [ ("today", today);
      ("dayforward", dayForward);
      ("day-forward", dayForward);
      ("tomorrow", dayForward);
      ("todayanddayforward", todayAndDayForward);
      ("today-dayforward", todayAndDayForward);
      ("today-and-dayforward", todayAndDayForward);
      ("justnow", justNow);
      ("just-now", justNow);
      ("now", justNow) ].

(** [TYPE_ALIASES] is an object literal, so a property read that misses
    its own keys continues in [Object.prototype]; what it finds there is
    neither [null] nor [undefined]. *)
Definition objectPrototypeKeys : list string :=
  [ "constructor"; "__proto__"; "hasOwnProperty"; "isPrototypeOf";
    "propertyIsEnumerable"; "toLocaleString"; "toString"; "valueOf";
    "__defineGetter__"; "__defineSetter__"; "__lookupGetter__";
    "__lookupSetter__" ].

Inductive Resolved :=
| Endpoint (key : EndpointKey)
| Inherited.

(** JavaScript truthiness of [string | null]. *)
Definition truthy (value : option string) : option string :=
  match value with
  | Some EmptyString => None
  | _ => value
  end.

(** [URLSearchParams]: pairs in order; [get] reads the first pair of a
    name, [set] overwrites it and drops the others, or appends. *)
Definition get (name : string) (params : list (string * string))
    : option string :=
  match list_find (λ p : string * string, p.1 = name) params with
  | Some (_, (_, value)) => Some value
  | None => None
  end.

Fixpoint set (name value : string) (params : list (string * string))
    : list (string * string) :=
  match params with
  | [] => [(name, value)]
  | (k, v) :: rest =>
      if decide (k = name)
      then (name, value) :: filter (λ p, p.1 ≠ name) rest
      else (k, v) :: set name value rest
  end.

(** A JavaScript number, as far as [GET] tells numbers apart. *)
Inductive number :=
| NaN
| Infinity (negative : bool)
| Finite (q : Q).

Definition isInteger (n : number) : bool :=
  match n with
  | Finite q => Qeq_bool (inject_Z (Qfloor q)) q
  | _ => false
  end.

(** [[15, 60].includes(n)]. *)
Definition includes (values : list Z) (n : number) : bool :=
  match n with
  | Finite q => existsb (λ v, Qeq_bool q (inject_Z v)) values
  | _ => false
  end.

(** [n < k] and [n > k] for a finite [k]; false on [NaN]. *)
Definition lessThan (n : number) (k : Z) : bool :=
  match n with
  | NaN => false
  | Infinity negative => negative
  | Finite q => negb (Qle_bool (inject_Z k) q)
  end.

Definition greaterThan (n : number) (k : Z) : bool :=
  match n with
  | NaN => false
  | Infinity negative => negb negative
  | Finite q => negb (Qle_bool q (inject_Z k))
  end.

(** [String(n)]; [GET] applies it to validated integers only, for which
    it is the decimal numeral. *)
Definition numberToString (n : number) : string :=
  match n with
  | NaN => "NaN"
  | Infinity negative => if negative then "-Infinity" else "Infinity"
  | Finite q => pretty (Qfloor q)
  end.

(** The upstream URL: [new URL(path, BASE_URL)] and its [search]. *)
Record URL := {
  origin : string;
  pathname : string;
  search : list (string * string);
}.

(** The outcome of [fetch] followed by [response.text()]: [fetch] rejects,
    or it resolves with a status and a content type and [text()] yields
    the body or rejects ([None]). *)
Inductive FetchResult :=
| FetchThrows
| FetchResponse (status : Z) (contentType : option string)
    (text : option string).

(** The host of the route: [Number] on strings, the case mappings
    [String.prototype.toUpperCase] and [toLowerCase], and the upstream
    server behind [fetch].  Of the case mappings the development uses only
    that on a string of ASCII characters they map the ASCII letters, as
    [Js.toUpperCase] and [Js.toLowerCase] do, and that they map nothing but
    the empty string to the empty string; what they do to other characters
    is the host's. *)
Class Host := {
  Number : string → number;
  fetch : URL → FetchResult;
  toUpperCase : string → string;
  toLowerCase : string → string;
  toUpperCase_ascii s : isAscii s = true → toUpperCase s = Js.toUpperCase s;
  toLowerCase_ascii s : isAscii s = true → toLowerCase s = Js.toLowerCase s;
  toUpperCase_empty s : toUpperCase s = "" → s = "";
  toLowerCase_empty s : toLowerCase s = "" → s = "";
}.

Inductive Body :=
| Json_error (error : string)
| Text (body : string).

Record Response := {
  status : Z;
  body : Body;
  contentType : string;
  cacheControl : option string;
}.

(** [NextResponse.json({ error }, { status })]. *)
Definition json_error (error : string) (status : Z) : Response :=
  {| status := status;
     body := Json_error error;
     contentType := "application/json";
     cacheControl := None |}.

(** [new NextResponse(body, { status, headers })] is the [Response]
    constructor of the Fetch standard: it throws for a status outside
    200..599 and for a body given with a null-body status. *)
Definition responseInitOk (status : Z) : bool :=
  (200 <=? status) && (status <=? 599)
  && negb (bool_decide (status ∈ [204; 205; 304])).

(** The handler leaves early with a response, or goes on with a value. *)
Inductive Early (A : Type) :=
| Return (response : Response)
| Continue (value : A).
Arguments Return {A} response.
Arguments Continue {A} value.

Definition bind {A B} (e : Early A) (k : A → Early B) : Early B :=
  match e with
  | Return response => Return response
  | Continue value => k value
  end.

Notation "x ←! e ; k" := (bind e (λ x, k))
  (at level 100, e at next level, k at level 200, right associativity).

Section Handler.
Context `{Host}.

(** [None] is [null]. *)
Definition resolveType (value : option string) : option Resolved :=
  match truthy value with
  | None => Some (Endpoint today)
  | Some value =>
      let name := toLowerCase value in
      match TYPE_ALIASES !! name with
      | Some key => Some (Endpoint key)
      | None =>
          if bool_decide (name ∈ objectPrototypeKeys)
          then Some Inherited else None
      end
  end.

Definition checkType (searchParams : list (string * string))
    : Early Resolved :=
  match resolveType (get "type" searchParams) with
  | None =>
      Return (json_error
        "Invalid type. Use: today, dayForward, todayAndDayForward, justNow."
        400)
  | Some type => Continue type
  end.

Definition forwardRegion (searchParams upstreamParams : list (string * string))
    : list (string * string) :=
  match truthy (get "region" searchParams) with
  | Some region => set "region" (toUpperCase region) upstreamParams
  | None => upstreamParams
  end.

Definition checkPriceResolution
    (searchParams upstreamParams : list (string * string))
    : Early (list (string * string)) :=
  match truthy (get "priceResolution" searchParams) with
  | Some priceResolution =>
      let parsed := Number priceResolution in
      if negb (includes [15; 60] parsed)
      then Return (json_error "priceResolution must be 15 or 60." 400)
      else Continue
             (set "priceResolution" (numberToString parsed) upstreamParams)
  | None => Continue upstreamParams
  end.

Definition checkLookForwardHours
    (searchParams upstreamParams : list (string * string))
    : Early (list (string * string)) :=
  match truthy (get "lookForwardHours" searchParams) with
  | Some lookForwardHours =>
      let parsed := Number lookForwardHours in
      if negb (isInteger parsed) || lessThan parsed 1
         || greaterThan parsed 6
      then Return (json_error
             "lookForwardHours must be an integer between 1 and 6." 400)
      else Continue
             (set "lookForwardHours" (numberToString parsed) upstreamParams)
  | None => Continue upstreamParams
  end.

Definition forwardFlag (name : string)
    (searchParams upstreamParams : list (string * string))
    : list (string * string) :=
  match get name searchParams with
  | Some flag =>
      if bool_decide (flag = "true") || bool_decide (flag = "false")
      then set name flag upstreamParams
      else upstreamParams
  | None => upstreamParams
  end.

(** Everything [GET] does before the [try]: the early 400 responses or
    the URL that is fetched. *)
Definition upstreamRequest (searchParams : list (string * string))
    : Early URL :=
  type ←! checkType searchParams;
  let upstreamParams := forwardRegion searchParams [] in
  upstreamParams ←! checkPriceResolution searchParams upstreamParams;
  upstreamParams ←! checkLookForwardHours searchParams upstreamParams;
  let upstreamParams :=
    forwardFlag "HomeAssistant" searchParams upstreamParams in
  let upstreamParams :=
    forwardFlag "HomeAssistant15Min" searchParams upstreamParams in
  Continue
    {| origin := BASE_URL;
       pathname := match type with
                   | Endpoint key => ENDPOINTS key
                   | Inherited => "/undefined"
                   end;
       search := upstreamParams |}.

Definition upstreamFailed : Response :=
  json_error "Upstream request failed." 502.

(** The [try ... catch] around [fetch]. *)
Definition passThrough (upstreamUrl : URL) : Response :=
  match fetch upstreamUrl with
  | FetchThrows => upstreamFailed
  | FetchResponse _ _ None => upstreamFailed
  | FetchResponse status contentType (Some body) =>
      if responseInitOk status then
        {| SpotRoute.status := status;
           SpotRoute.body := Text body;
           SpotRoute.contentType := default "application/json" contentType;
           cacheControl :=
             if (200 <=? status) && (status <=? 299)
             then Some ("public, s-maxage=" +:+ pretty CACHE_SECONDS
                        +:+ ", stale-while-revalidate=300")
             else None |}
      else upstreamFailed
  end.

Definition GET (searchParams : list (string * string)) : Response :=
  match upstreamRequest searchParams with
  | Return response => response
  | Continue upstreamUrl => passThrough upstreamUrl
  end.
End Handler.

End SpotRoute.

(** ** [src/app/page.tsx] *)

Module Page.
Import Js SpotRoute.

Definition REGION_OPTIONS : list string :=
  [ "FI"; "SE1"; "SE2"; "SE3"; "SE4"; "NO1"; "NO2"; "NO3"; "NO4"; "NO5";
    "DK1"; "DK2"; "EE"; "LT"; "LV" ].

(** The [value] and the [label] of each option. *)
Definition RESOLUTION_OPTIONS : list (string * string) :=
  [ ("15", "Varttitunti"); ("60", "Tunti") ].

(** [buildSpotQuery]: the parameters before [params.toString()]. *)
Definition buildSpotQuery (region priceResolution : string)
    : list (string * string) :=
  let params := [] in
  let params := set "region" region params in
  let params := set "priceResolution" priceResolution params in
  params.

(** The query of [`/api/spot?type=${type}&${baseQuery}`] as the route reads
    it back from the URL: writing the parameters into the URL and parsing
    them again is left to the runtime. *)
Definition spotQuery (type : string) (baseQuery : list (string * string))
    : list (string * string) :=
  ("type", type) :: baseQuery.

(** A parsed response body: a JSON value, or the text of the body as a
    string.  An object holds its own properties, one pair per key. *)
#[warnings="-register-all"]
Inductive Json :=
| JNull
| JBool (b : bool)
| JNumber (q : Q)
| JString (s : string)
| JArray (items : list Json)
| JObject (fields : list (string * Json)).

(** [name in payload] and [payload[name]] for an object. *)
Definition property (name : string) (fields : list (string * Json))
    : option Json :=
  match list_find (λ p : string * Json, p.1 = name) fields with
  | Some (_, (_, value)) => Some value
  | None => None
  end.

Definition normalizePayload (payload : Json) : list Json :=
  match payload with
  | JArray items => items
  | JObject fields =>
      if bool_decide (is_Some (property "DateTime" fields))
      then [payload] else []
  | _ => []
  end.

(** [!s.trim()]: nothing is left of the string once [trim] has stripped
    the white space and the line terminators at both ends.  Which characters
    these are (those of Unicode, beyond the ASCII ones) is the runtime's. *)
Class StringRuntime := {
  isBlank : string → bool;
}.

Section Loading.
Context `{StringRuntime}.

Definition getErrorMessage (payload : Json) (fallback : string) : string :=
  let fromError :=
    match payload with
    | JObject fields =>
        match property "error" fields with
        | Some (JString errorValue) =>
            if negb (isBlank errorValue) then Some errorValue else None
        | _ => None
        end
    | _ => None
    end in
  match fromError with
  | Some errorValue => errorValue
  | None =>
      match payload with
      | JString text => if negb (isBlank text) then text else fallback
      | _ => fallback
      end
  end.

(** What [fetchSpot] comes to: the fetch is aborted ([AbortError]), it or
    the reading of the body fails with another error, or there is an answer
    with its status, status text and parsed body. *)
Inductive SpotResult :=
| Aborted
| Failed
| Answered (status : Z) (statusText : string) (payload : Json).

(** [response.ok]. *)
Definition ok (status : Z) : bool := (200 <=? status) && (status <=? 299).

(** The state of [Home] that [loadPrices] writes. *)
Record PageState := {
  data : list Json;
  isLoading : bool;
  error : option string;
}.

Definition setData (value : list Json) (state : PageState) : PageState :=
  {| data := value; isLoading := isLoading state; error := error state |}.

Definition setIsLoading (value : bool) (state : PageState) : PageState :=
  {| data := data state; isLoading := value; error := error state |}.

Definition setError (value : option string) (state : PageState)
    : PageState :=
  {| data := data state; isLoading := isLoading state; error := value |}.

(** The [catch] branch for an error that is no [AbortError]. *)
Definition loadFailed (state : PageState) : PageState :=
  setData [] (setError (Some "Failed to load prices.") state).

Definition showError (payload : Json) (statusText : string)
    (state : PageState) : PageState :=
  setData [] (setError (Some (getErrorMessage payload statusText)) state).

(** [loadPrices]; [aborted] is [signal.aborted] when the [finally] block
    runs. *)
Definition loadPrices (fetchSpot : string → SpotResult) (aborted : bool)
    (state : PageState) : PageState :=
  let state := setIsLoading true state in
  let state := setError None state in
  let state :=
    match fetchSpot "todayAndDayForward" with
    | Aborted => state
    | Failed => loadFailed state
    | Answered status statusText payload =>
        if ok status then setData (normalizePayload payload) state
        else if status =? 404 then
          match fetchSpot "today" with
          | Aborted => state
          | Failed => loadFailed state
          | Answered status' statusText' payload' =>
              if negb (ok status') then showError payload' statusText' state
              else setData (normalizePayload payload') state
          end
        else showError payload statusText state
    end in
  if negb aborted then setIsLoading false state else state.
End Loading.

End Page.

(** ** Vocabulary of the properties *)

Module Spec.
Import Js ChartView SpotRoute.

(** *** Interval estimator *)

Definition positiveDiffs (chartData : list ChartDatum) : list Z :=
  filter (λ diff, 0 < diff) (timestampDiffs chartData).

Definition sortedDiffs (chartData : list ChartDatum) : list Z :=
  sort (λ a b, signZ (a - b)) (positiveDiffs chartData).

(** The estimator as the specification words it: the lower-middle element
    of the sorted positive deltas, rounded to whole minutes, and 60 when
    there are fewer than two points or no positive delta. *)
Definition stepMinutes_spec (chartData : list ChartDatum) : Z :=
  if (length chartData <? 2)%nat then 60
  else
    let diffs := sortedDiffs chartData in
    match diffs !! ((length diffs - 1) / 2)%nat with
    | None => 60
    | Some median => Math_round (inject_Z median / 60000)%Q
    end.

(** *** Order of the pipeline *)

Definition byTime (a b : ChartDatum) : Prop := timestamp a <= timestamp b.
Definition byPrice (a b : ChartDatum) : Prop := (price a <= price b)%Q.

(** *** Ranking *)

#[global] Instance Qlt_decision (x y : Q) : Decision (x < y)%Q :=
  decide (Qnum x * QDen y < Qnum y * QDen x).

#[global] Instance Q_eq_dec : EqDecision Q.
Proof. solve_decision. Defined.

(** The price as a reduced fraction: equal keys, equal prices. *)
Definition priceKey (point : ChartDatum) : Q := Qred (price point).

(** How many of [points] are strictly cheaper than [point]. *)
Definition cheaper (points : list ChartDatum) (point : ChartDatum) : nat :=
  length (filter (λ other, (price other < price point)%Q) points).

Definition tierColor (rank greenLimit yellowLimit : Z) : string :=
  if rank <? greenLimit then PRICE_COLORS.low
  else if rank <? yellowLimit then PRICE_COLORS.mid
  else PRICE_COLORS.high.

Definition countFill (color : string) (points : list ChartDatum) : nat :=
  length (filter (λ point, fill point = Some color) points).

(** *** Annotations *)

Section Annotations.
Context `{Runtime}.

(** The next full local hour at or after [t], and the next even one. *)
Definition hourCeil (t : Z) : Z := t + (- localMs t) mod msPerHour.
Definition evenHourCeil (t : Z) : Z :=
  t + (- localMs t) mod (2 * msPerHour).

Definition markerAt (halfStepMs : Z) (point : ChartDatum) : Marker :=
  {| marker_x := timestamp point - halfStepMs;
     marker_label := formatDayLineLabel (timestamp point) |}.
End Annotations.

(** The points whose day key differs from that of the point before them,
    [previous] being the day key before the first of [points]. *)
Fixpoint dayChanges (previous : string) (points : list ChartDatum)
    : list ChartDatum :=
  match points with
  | [] => []
  | point :: rest =>
      if decide (dayKey point ≠ previous)
      then point :: dayChanges (dayKey point) rest
      else dayChanges (dayKey point) rest
  end.

(** *** Proxy *)

(** What [GET] forwards for a boolean flag. *)
Definition forwardedFlag (value : option string) : option string :=
  match value with
  | Some flag =>
      if bool_decide (flag = "true"%string)
         || bool_decide (flag = "false"%string)
      then Some flag else None
  | None => None
  end.

(** The three ways in which [GET] rejects a query before fetching. *)
Definition invalidType `{Host}
    (searchParams : list (string * string)) : Prop :=
  resolveType (get "type" searchParams) = None.

Definition invalidPriceResolution `{Host}
    (searchParams : list (string * string)) : Prop :=
  ∃ value, truthy (get "priceResolution" searchParams) = Some value
           ∧ includes [15; 60] (Number value) = false.

Definition invalidLookForwardHours `{Host}
    (searchParams : list (string * string)) : Prop :=
  ∃ value, truthy (get "lookForwardHours" searchParams) = Some value
           ∧ (isInteger (Number value) = false
              ∨ lessThan (Number value) 1 = true
              ∨ greaterThan (Number value) 6 = true).

(** *** Time zones *)

(** From [lo] to [hi] the offset of local time is [offset], whichever way
    the zone is asked. *)
Definition steadyOffset `{Zone} (offset lo hi : Z) : Prop :=
  ∀ t, lo <= t <= hi →
       LocalTZA t true = offset ∧ LocalTZA (t + offset) false = offset.

(** *** Binary64 *)

(** A number that is no [NaN], with its sign. *)
Definition signed (s : bool) (x : spec_float) : Prop :=
  x = S754_zero s ∨ (∃ m e, x = S754_finite s m e) ∨ x = S754_infinity s.

End Spec.

(** ** A concrete host, for running the definitions *)

Module Samples.
Import Js ChartView SpotRoute.

Fixpoint digitsFrom (acc : Z) (s : string) : option Z :=
  match s with
  | EmptyString => Some acc
  | String c rest =>
      let n := Z.of_nat (nat_of_ascii c) in
      if (48 <=? n) && (n <=? 57)
      then digitsFrom (10 * acc + (n - 48)) rest else None
  end.

(** An unsigned decimal numeral. *)
Definition digits (s : string) : option Z :=
  match s with
  | EmptyString => None
  | _ => digitsFrom 0 s
  end.

Definition daysFromCivil (y m d : Z) : Z :=
  let y := if m <=? 2 then y - 1 else y in
  let era := y / 400 in
  let yoe := y - era * 400 in
  let doy := (153 * (if 2 <? m then m - 3 else m + 9) + 2) / 5 + d - 1 in
  let doe := yoe * 365 + yoe / 4 - yoe / 100 + doy in
  era * 146097 + doe - 719468.

(** [Date.parse] on the one format the price feed uses,
    [YYYY-MM-DDTHH:MM:SS+HH:MM]. *)
Definition parseIso (s : string) : option Z :=
  if negb (String.length s =? 25)%nat then None
  else if negb (bool_decide (substring 19 1 s = "+")) then None
  else
    y ← digits (substring 0 4 s);
    m ← digits (substring 5 2 s);
    d ← digits (substring 8 2 s);
    hh ← digits (substring 11 2 s);
    mm ← digits (substring 14 2 s);
    ss ← digits (substring 17 2 s);
    oh ← digits (substring 20 2 s);
    om ← digits (substring 23 2 s);
    Some (daysFromCivil y m d * 86400000 + hh * 3600000 + mm * 60000
          + ss * 1000 - (oh * 3600000 + om * 60000)).

Definition hhmm (tz t : Z) : string :=
  let ms := (t + tz) mod 86400000 in
  padStart2 (pretty (ms / 3600000)) +:+ ":"
    +:+ padStart2 (pretty (ms mod 3600000 / 60000)).

Definition weekdayName (names : list string) (tz t : Z) : string :=
  default "" (names !! Z.to_nat (((t + tz) / 86400000 + 4) mod 7)).

(** Finnish standard time, two hours ahead of UTC. *)
Definition helsinki : Runtime :=
  {| tzOffset := 7200000;
     Date_parse := parseIso;
     timeFormatter := hhmm 7200000;
     weekdayFormatter :=
       weekdayName ["sunnuntai"; "maanantai"; "tiistai"; "keskiviikko";
                    "torstai"; "perjantai"; "lauantai"] 7200000;
     weekdayShortFormatter :=
       weekdayName ["su"; "ma"; "ti"; "ke"; "to"; "pe"; "la"] 7200000;
     tooltipTimeFormatter := hhmm 7200000 |}.

(** One record of the feed, prices in euro per kWh. *)
Definition record (dateTime : string) (noTax withTax : Q)
    : option SpotPrice :=
  Some {| DateTime := Some dateTime;
          PriceNoTax := Some noTax;
          PriceWithTax := Some withTax;
          Rank := None |}.

Definition hourStamp (day : string) (hour : nat) : string :=
  day +:+ "T" +:+ padStart2 (pretty (Z.of_nat hour)) +:+ ":00:00+02:00".

(** The hourly records of one day; the price of hour [h] is the [h]-th
    entry of [cents], in hundredths of a cent. *)
Definition hourly (day : string) (cents : list Z)
    : list (option SpotPrice) :=
  imap (λ hour c, record (hourStamp day hour) (c # 10000)
                    ((c * 1255) # 10000000))
       cents.

Definition monday : list (option SpotPrice) :=
  hourly "2024-01-15"
    [ 412; 398; 377; 365; 380; 455; 612; 893; 1104; 1012; 950; 921;
      887; 865; 902; 978; 1130; 1299; 1250; 1081; 842; 690; 560; 470 ].

Definition tuesday : list (option SpotPrice) :=
  hourly "2024-01-16"
    [ 431; 405; 391; 388; 402; 478; 655; 921; 1180; 1075; 990; 940;
      905; 880; 925; 1001; 1170; 1340; 1285; 1120; 870; 710; 585; 490 ].

(** A bare point, for inputs given directly to a later stage. *)
Definition point (timestamp : Z) (dayKey : string) (price : Q)
    : ChartDatum :=
  {| label := ""; fullLabel := ""; price := price;
     timestamp := timestamp; dayKey := dayKey; fill := None |}.

(** The integer numerals of [Number]; anything else is [NaN] here. *)
Definition decimalNumber (s : string) : number :=
  match s with
  | String "-" rest =>
      match digits rest with Some n => Finite (inject_Z (- n)) | None => NaN end
  | _ => match digits s with Some n => Finite (inject_Z n) | None => NaN end
  end.

(** An upstream that answers every request with the given result, on a
    host whose strings hold ASCII characters. *)
Definition hostAnswering (result : FetchResult) : Host :=
  {| Number := decimalNumber;
     fetch := λ _, result;
     toUpperCase := Js.toUpperCase;
     toLowerCase := Js.toLowerCase;
     toUpperCase_ascii := λ _ _, eq_refl;
     toLowerCase_ascii := λ _ _, eq_refl;
     toUpperCase_empty := ltac:(by intros [|c s]);
     toLowerCase_empty := ltac:(by intros [|c s]) |}.

(** Monday as the normalizer delivers it, and both days. *)
Definition mondayPoints : list ChartDatum :=
  Eval vm_compute in @chartData helsinki (Some monday) true 100.

Definition twoDays : list ChartDatum :=
  Eval vm_compute in
    @chartData helsinki (Some (monday ++ tuesday)) true 100.

(** Monday 00:00, 01:00 and 03:00: the hour in between is missing. *)
Definition gappy : list ChartDatum :=
  [ point 1705269600000 "2024-01-15" 5;
    point 1705273200000 "2024-01-15" 4;
    point 1705280400000 "2024-01-15" 6 ].

(** Three samples one second apart. *)
Definition jittery : list ChartDatum :=
  [ point 1705269600000 "2024-01-15" 5;
    point 1705269601000 "2024-01-15" 4;
    point 1705269602000 "2024-01-15" 6 ].

(** The last four quarter hours of Monday, 23:00 to 23:45. *)
Definition lateEvening : list ChartDatum :=
  [ point 1705352400000 "2024-01-15" 5;
    point 1705353300000 "2024-01-15" 4;
    point 1705354200000 "2024-01-15" 6;
    point 1705355100000 "2024-01-15" 7 ].

(** Zones whose clocks went forward by an hour on 31 March 2024 at 01:00
    UTC and back on 27 October 2024 at 01:00 UTC; [standard] is the offset
    in winter.  A local time in the skipped hour or in the repeated hour is
    read with the offset before the change. *)
Definition europeanZone (standard : Z) : Zone :=
  {| LocalTZA t isUTC :=
       let summer := standard + 3600000 in
       if isUTC then
         if (1711846800000 <=? t) && (t <? 1729990800000)
         then summer else standard
       else
         if t <? 1711846800000 + summer then standard
         else if t <? 1729990800000 + summer then summer
         else standard |}.

Definition helsinkiZone : Zone := europeanZone 7200000.
Definition berlinZone : Zone := europeanZone 3600000.

(** Hourly points over the night of 31 March 2024, from 22:00 UTC to 04:00
    UTC. *)
Definition marchNight : list ChartDatum :=
  (λ k : nat, point (1711836000000 + 3600000 * Z.of_nat k) "2024-03-31" 5)
    <$> seq 0 7.

(** A runtime for strings of ASCII characters: [trim] strips tab, line
    feed, vertical tab, form feed, carriage return and space. *)
Definition asciiSpace (c : ascii) : bool :=
  let n := nat_of_ascii c in
  ((9 <=? n) && (n <=? 13) || (n =? 32))%nat.

Fixpoint asciiBlank (s : string) : bool :=
  match s with
  | EmptyString => true
  | String c rest => asciiSpace c && asciiBlank rest
  end.

Definition asciiStrings : Page.StringRuntime :=
  {| Page.isBlank := asciiBlank |}.

End Samples.

(** * Properties *)

Import Js ChartView SpotRoute Spec Samples.

(** ** Sorting *)

Section sort_facts.
Context {A : Type} (compare : A → A → comparison).

Hypothesis compare_total : ∀ a b, compare a b = Gt → precedes compare b a.
Hypothesis precedes_trans : Transitive (precedes compare).

Lemma insert_Permutation x l : insert compare x l ≡ₚ x :: l.
Proof.
  induction l as [|y l IH]; simpl; [done|].
  destruct (compare x y); try done.
  rewrite IH. apply Permutation_swap.
Qed.

Lemma sort_Permutation l : sort compare l ≡ₚ l.
Proof.
  induction l as [|x l IH]; simpl; [done|].
  by rewrite insert_Permutation, IH.
Qed.

Lemma sort_length l : length (sort compare l) = length l.
Proof. apply Permutation_length, sort_Permutation. Qed.

Lemma insert_HdRel a x l :
  precedes compare a x → HdRel (precedes compare) a l →
  HdRel (precedes compare) a (insert compare x l).
Proof.
  intros Hax Hal. destruct l as [|y l]; simpl; [by constructor|].
  destruct (compare x y); constructor; try done; by inversion Hal.
Qed.

Lemma insert_Sorted x l :
  Sorted (precedes compare) l →
  Sorted (precedes compare) (insert compare x l).
Proof.
  induction 1 as [|y l Hl IH Hy]; simpl; [by repeat constructor|].
  destruct (compare x y) eqn:Hxy.
  - repeat constructor; try done. unfold precedes. congruence.
  - repeat constructor; try done. unfold precedes. congruence.
  - constructor; [done|]. apply insert_HdRel; [|done].
    by apply compare_total.
Qed.

Lemma sort_Sorted l : Sorted (precedes compare) (sort compare l).
Proof.
  induction l as [|x l IH]; simpl; [constructor|by apply insert_Sorted].
Qed.

Lemma sort_StronglySorted l :
  StronglySorted (precedes compare) (sort compare l).
Proof. apply Sorted_StronglySorted; [done|apply sort_Sorted]. Qed.
End sort_facts.

Lemma StronglySorted_weaken {A} (R S : relation A) (l : list A) :
  (∀ a b, R a b → S a b) → StronglySorted R l → StronglySorted S l.
Proof.
  intros HRS. induction 1 as [|a l _ IH Ha]; constructor; [done|].
  eapply Forall_impl; [exact Ha|]. intros b. apply HRS.
Qed.

Lemma precedes_signZ {A} (key : A → Z) a b :
  precedes (λ a b, signZ (key a - key b)) a b ↔ key a <= key b.
Proof.
  unfold precedes, signZ.
  destruct (Z.compare_spec (key a - key b) 0); split; intros; try done; lia.
Qed.

Lemma sort_by_Z_sorted {A} (key : A → Z) (l : list A) :
  StronglySorted (λ a b, key a <= key b)
    (sort (λ a b, signZ (key a - key b)) l).
Proof.
  eapply StronglySorted_weaken; [|apply sort_StronglySorted].
  - intros a b. apply precedes_signZ.
  - intros a b Hab. apply precedes_signZ.
    assert (¬ key a <= key b); [|lia].
    rewrite <- (precedes_signZ key). unfold precedes. congruence.
  - intros a b c Hab Hbc. apply precedes_signZ.
    apply precedes_signZ in Hab, Hbc. lia.
Qed.

(** ** Rounding *)

Lemma Math_round_div (a b : Z) :
  0 < b → Math_round (inject_Z a / inject_Z b)%Q = (2 * a + b) / (2 * b).
Proof.
  intros Hb. destruct b as [|p|p]; try lia.
  unfold Math_round.
  assert (inject_Z a / inject_Z (Z.pos p) + (1 # 2)
          == (2 * a + Z.pos p) # (2 * p))%Q as ->.
  { unfold Qeq, Qdiv, Qmult, Qplus, Qinv, inject_Z; simpl. lia. }
  reflexivity.
Qed.

Lemma round_nearest (m : Z) :
  let minutes := (m + 30000) / 60000 in
  Math_round (inject_Z m / 60000)%Q = minutes
  ∧ -30000 < 60000 * minutes - m <= 30000.
Proof.
  simpl. split.
  - change 60000%Q with (inject_Z 60000). rewrite Math_round_div by lia.
    replace (2 * m + 60000) with (2 * (m + 30000)) by lia.
    by rewrite Z.div_mul_cancel_l by lia.
  - pose proof (Z.div_mod (m + 30000) 60000 ltac:(lia)).
    pose proof (Z.mod_pos_bound (m + 30000) 60000 ltac:(lia)). lia.
Qed.

Lemma pointsPerHour_eq (s : Z) :
  0 < s → pointsPerHour s = Z.max 1 ((120 + s) / (2 * s)).
Proof.
  intros Hs. unfold pointsPerHour.
  change 60%Q with (inject_Z 60). by rewrite Math_round_div by lia.
Qed.

(** ** The interval estimator *)

Lemma timestampDiffs_lookup (chartData : list ChartDatum) i p q :
  chartData !! i = Some p → chartData !! S i = Some q →
  timestampDiffs chartData !! i = Some (timestamp q - timestamp p).
Proof.
  intros Hp Hq. unfold timestampDiffs.
  rewrite list_lookup_imap, lookup_drop. simpl. by rewrite Hq, Hp.
Qed.

Lemma timestampDiffs_length (chartData : list ChartDatum) :
  length (timestampDiffs chartData) = (length chartData - 1)%nat.
Proof. unfold timestampDiffs. by rewrite length_imap, length_drop. Qed.

Lemma sortedDiffs_Permutation chartData :
  sortedDiffs chartData ≡ₚ positiveDiffs chartData.
Proof. apply sort_Permutation. Qed.

Lemma sortedDiffs_sorted chartData :
  StronglySorted Z.le (sortedDiffs chartData).
Proof. apply (sort_by_Z_sorted id). Qed.

Lemma sortedDiffs_positive chartData :
  Forall (λ d, 0 < d) (sortedDiffs chartData).
Proof.
  rewrite sortedDiffs_Permutation. unfold positiveDiffs.
  apply Forall_forall. intros d Hd.
  by apply list_elem_of_filter in Hd as [? _].
Qed.

Lemma stepMinutes_default chartData :
  (length chartData < 2)%nat ∨ positiveDiffs chartData = [] →
  stepMinutes chartData = 60.
Proof.
  intros Hcase. unfold stepMinutes.
  destruct (Nat.ltb_spec (length chartData) 2) as [|Hlen]; [done|].
  destruct Hcase as [|Hnil]; [lia|].
  fold (positiveDiffs chartData). by rewrite Hnil.
Qed.

Lemma stepMinutes_median chartData :
  (2 ≤ length chartData)%nat → positiveDiffs chartData ≠ [] →
  ∃ median,
    sortedDiffs chartData !! (length (sortedDiffs chartData) / 2)%nat
      = Some median
    ∧ 0 < median
    ∧ stepMinutes chartData =
        if (median + 30000) / 60000 =? 0 then 60
        else (median + 30000) / 60000.
Proof.
  intros Hlen Hne.
  assert (0 < length (sortedDiffs chartData))%nat as Hpos.
  { unfold sortedDiffs. rewrite sort_length.
    destruct (positiveDiffs chartData); [done|simpl; lia]. }
  destruct (lookup_lt_is_Some_2 (sortedDiffs chartData)
              (length (sortedDiffs chartData) / 2)%nat) as [median Hmedian].
  { apply Nat.div_lt; lia. }
  exists median. split; [done|]. split.
  { eapply Forall_lookup_1; [apply sortedDiffs_positive|done]. }
  unfold stepMinutes.
  destruct (Nat.ltb_spec (length chartData) 2) as [|_]; [lia|].
  fold (positiveDiffs chartData).
  destruct (Nat.eqb_spec (length (positiveDiffs chartData)) 0) as [Hz|_].
  { destruct (positiveDiffs chartData); done. }
  fold (sortedDiffs chartData). rewrite Hmedian. simpl.
  by destruct (round_nearest median) as [-> _].
Qed.

(** Claim C1, as the code has it.  With fewer than two points, or with no
    positive successive timestamp difference, the estimator returns 60.
    Otherwise it sorts the positive differences in ascending order, takes
    the element at index [length / 2] counted from 0 (for an even count this
    is the upper of the two middle elements), rounds it to the nearest whole
    minute, and returns that number of minutes, or 60 when it is 0. *)
Theorem stepMinutes_rounded_median (chartData : list ChartDatum) :
  (∀ i p q, chartData !! i = Some p → chartData !! S i = Some q →
     timestampDiffs chartData !! i = Some (timestamp q - timestamp p))
  ∧ sortedDiffs chartData ≡ₚ positiveDiffs chartData
  ∧ StronglySorted Z.le (sortedDiffs chartData)
  ∧ ((length chartData < 2)%nat ∨ positiveDiffs chartData = [] →
     stepMinutes chartData = 60)
  ∧ ((2 ≤ length chartData)%nat → positiveDiffs chartData ≠ [] →
     ∃ median,
       sortedDiffs chartData !! (length (sortedDiffs chartData) / 2)%nat
         = Some median
       ∧ let minutes := (median + 30000) / 60000 in
         -30000 < 60000 * minutes - median <= 30000
         ∧ stepMinutes chartData = if minutes =? 0 then 60 else minutes).
Proof.
  split_and!.
  - apply timestampDiffs_lookup.
  - apply sortedDiffs_Permutation.
  - apply sortedDiffs_sorted.
  - apply stepMinutes_default.
  - intros Hlen Hne.
    destruct (stepMinutes_median chartData Hlen Hne)
      as (median & Hm & _ & Hs).
    exists median. split; [done|]. simpl. split; [|done].
    apply (round_nearest median).
Qed.

Lemma stepMinutes_rounded_median_witness :
  ∃ median,
    sortedDiffs gappy !! (length (sortedDiffs gappy) / 2)%nat = Some median
    ∧ let minutes := (median + 30000) / 60000 in
      -30000 < 60000 * minutes - median <= 30000
      ∧ stepMinutes gappy = if minutes =? 0 then 60 else minutes.
Proof.
  apply (stepMinutes_rounded_median gappy).
  - vm_compute. lia.
  - vm_compute. discriminate.
Defined.

(** Points at 00:00, 01:00 and 03:00: the sorted positive differences are
    60 and 120 minutes; the lower-middle one is 60, the code returns 120. *)
Lemma stepMinutes_lower_median_counterexample :
  StronglySorted byTime gappy
  ∧ sortedDiffs gappy = [3600000; 7200000]
  ∧ stepMinutes_spec gappy = 60
  ∧ stepMinutes gappy = 120
  ∧ stepMinutes gappy ≠ stepMinutes_spec gappy.
Proof.
  split_and!; [|by vm_compute..].
  repeat constructor; vm_compute; discriminate.
Qed.

(** Samples one second apart: the median rounds to 0 minutes, and the code
    returns 60. *)
Example stepMinutes_zero_rounding :
  sortedDiffs jittery = [1000; 1000]
  ∧ stepMinutes_spec jittery = 0
  ∧ stepMinutes jittery = 60.
Proof. by vm_compute. Qed.

(** Claim C10.  The estimated interval is at least one minute for every
    input: a median that rounds to 0 minutes, as when every positive
    difference is below 30 seconds, yields 60.  Hence the division in
    [pointsPerHour] is by a non-zero number, [pointsPerHour] is at least 1
    and [stepMs] is strictly positive. *)
Theorem stepMinutes_at_least_one (chartData : list ChartDatum) :
  let s := stepMinutes chartData in
  1 <= s
  ∧ pointsPerHour s = Z.max 1 ((120 + s) / (2 * s))
  ∧ 1 <= pointsPerHour s
  ∧ 0 < stepMs s
  ∧ (∀ median,
       (2 ≤ length chartData)%nat →
       sortedDiffs chartData !! (length (sortedDiffs chartData) / 2)%nat
         = Some median →
       (median + 30000) / 60000 = 0 → s = 60)
  ∧ ((2 ≤ length chartData)%nat → positiveDiffs chartData ≠ [] →
     Forall (λ d, d < 30000) (positiveDiffs chartData) → s = 60).
Proof.
  simpl.
  assert (∀ median, (2 ≤ length chartData)%nat →
            sortedDiffs chartData !! (length (sortedDiffs chartData) / 2)%nat
              = Some median →
            (median + 30000) / 60000 = 0 → stepMinutes chartData = 60)
    as Hzero.
  { intros median Hlen Hm Hz.
    destruct (stepMinutes_median chartData Hlen) as (m & Hm' & _ & ->).
    - intros Hnil. unfold sortedDiffs in Hm. by rewrite Hnil in Hm.
    - rewrite Hm in Hm'. injection Hm' as <-. by rewrite Hz. }
  assert (1 <= stepMinutes chartData) as Hs.
  { destruct (decide ((length chartData < 2)%nat
                      ∨ positiveDiffs chartData = [])) as [Hd|Hd].
    - rewrite stepMinutes_default by done. lia.
    - destruct (stepMinutes_median chartData) as (m & _ & Hpos & ->);
        [lia|tauto|].
      assert (0 <= (m + 30000) / 60000) by (apply Z.div_pos; lia).
      destruct (Z.eqb_spec ((m + 30000) / 60000) 0); lia. }
  split_and!; try done.
  - apply pointsPerHour_eq. lia.
  - unfold pointsPerHour. lia.
  - unfold stepMs. lia.
  - intros Hlen Hne Hall.
    destruct (stepMinutes_median chartData Hlen Hne) as (m & Hm & Hpos & _).
    apply (Hzero m Hlen Hm).
    assert (m < 30000).
    { assert (m ∈ positiveDiffs chartData) as Hin.
      { rewrite <- sortedDiffs_Permutation. by eapply list_elem_of_lookup_2. }
      by apply (proj1 (Forall_forall _ _) Hall). }
    apply Z.div_small. lia.
Qed.

Lemma stepMinutes_at_least_one_witness :
  stepMinutes jittery = 60.
Proof.
  apply (stepMinutes_at_least_one jittery).
  - vm_compute. lia.
  - vm_compute. discriminate.
  - repeat constructor.
Defined.

(** ** Axis ticks *)

Lemma scaled_seq_sorted (a c : Z) (i n : nat) :
  0 < c → StronglySorted Z.lt ((λ k : nat, a + c * Z.of_nat k) <$> seq i n).
Proof.
  intros Hc. revert i. induction n as [|n IH]; intros i; simpl; constructor.
  - apply IH.
  - apply Forall_fmap, Forall_forall. intros k Hk. simpl.
    apply elem_of_seq in Hk. nia.
Qed.

Section axis_ticks.
Context `{Runtime}.

Lemma setHours_plus t k : setHours t (getHours t + k) = t + k * msPerHour.
Proof. unfold setHours. f_equal. f_equal. lia. Qed.

Lemma ticksLoop_unfold end_ tick :
  ticksLoop end_ tick =
    if decide (tick <= end_)
    then tick :: ticksLoop end_ (tick + 2 * msPerHour) else [].
Proof.
  rewrite ticksLoop_equation_1.
  destruct (decide (tick <= end_)); simpl; [|done].
  by rewrite setHours_plus.
Qed.

Lemma ticksLoop_seq end_ tick :
  ticksLoop end_ tick =
    (λ k : nat, tick + 2 * msPerHour * Z.of_nat k)
      <$> seq 0 (Z.to_nat ((end_ - tick) / (2 * msPerHour) + 1)).
Proof.
  remember (Z.to_nat ((end_ - tick) / (2 * msPerHour) + 1)) as n eqn:Hn.
  revert tick Hn. unfold msPerHour.
  induction n as [|n IH]; intros tick Hn; rewrite ticksLoop_unfold.
  - destruct (decide (tick <= end_)) as [Hle|]; [|done].
    assert (0 <= (end_ - tick) / (2 * 3600000)) by (apply Z.div_pos; lia).
    lia.
  - destruct (decide (tick <= end_)) as [Hle|Hgt].
    + simpl. f_equal; [lia|]. rewrite <- fmap_S_seq, <- list_fmap_compose.
      unfold msPerHour. rewrite (IH (tick + 2 * 3600000)).
      * apply list_fmap_ext. intros _ k _. simpl. lia.
      * replace (end_ - (tick + 2 * 3600000))
          with (end_ - tick + -1 * (2 * 3600000)) by lia.
        rewrite Z.div_add by lia. lia.
    + assert ((end_ - tick) / (2 * 3600000) < 0)
        by (apply Z.div_lt_upper_bound; lia).
      lia.
Qed.

Lemma firstTick_even_hour start :
  let tick := firstTick start in
  start <= tick < start + 2 * msPerHour
  ∧ localMs tick mod (2 * msPerHour) = 0
  ∧ localMs tick mod msPerHour = 0
  ∧ getHours tick mod 2 = 0.
Proof.
  simpl. unfold firstTick.
  set (tick0 := setMinutes000 start).
  set (tick1 := if tick0 <? start
                then setHours tick0 (getHours tick0 + 1) else tick0).
  assert (start <= tick1 < start + msPerHour
          ∧ localMs tick1 mod msPerHour = 0) as [Hrange1 Hhour1].
  { subst tick1 tick0. rewrite setHours_plus.
    unfold setMinutes000, localMs, msPerHour.
    destruct (Z.ltb_spec (start - (start + tzOffset) mod 3600000) start);
      split; try lia.
    all: Z.to_euclidean_division_equations; lia. }
  assert (∀ t, localMs (t + 1 * msPerHour) = localMs t + msPerHour) as HL
    by (intros t; unfold localMs; lia).
  assert (∀ t, getHours t mod 2 = (localMs t / msPerHour) mod 2) as Hparity.
  { intros t. unfold getHours. apply Z.mod_mod_divide. by exists 12. }
  rewrite setHours_plus.
  destruct (Z.eqb_spec (getHours tick1 mod 2) 0) as [Heven|Hodd]; simpl.
  - rewrite Hparity in Heven |- *. revert Hrange1 Hhour1 Heven.
    unfold msPerHour. generalize (localMs tick1). intros L ? ? ?.
    repeat split; try lia. Z.to_euclidean_division_equations; lia.
  - rewrite Hparity in Hodd |- *. rewrite HL. revert Hrange1 Hhour1 Hodd.
    unfold msPerHour. generalize (localMs tick1). intros L ? ? ?.
    repeat split; try lia; Z.to_euclidean_division_equations; lia.
Qed.

Lemma firstTick_rounding start :
  firstTick start = evenHourCeil (hourCeil start).
Proof.
  destruct (firstTick_even_hour start) as (Hrange & Heven & _ & _).
  revert Hrange Heven. generalize (firstTick start). intros tick.
  unfold evenHourCeil, hourCeil, localMs, msPerHour.
  Z.to_euclidean_division_equations; lia.
Qed.

(** With a fixed offset: the ticks start at the first visible timestamp
    rounded up to the next full local hour and then up to the next even
    hour, and follow each other every two hours up to the last visible
    timestamp. *)
Lemma axisTicks_fixed_offset (visibleData : list ChartDatum)
    (first final : ChartDatum) :
  head visibleData = Some first → last visibleData = Some final →
  let start := timestamp first in
  let end_ := timestamp final in
  let tick0 := evenHourCeil (hourCeil start) in
  ∃ ticks,
    axisTicks visibleData = Some ticks
    ∧ ticks = (λ k : nat, tick0 + 2 * msPerHour * Z.of_nat k)
                <$> seq 0 (Z.to_nat ((end_ - tick0) / (2 * msPerHour) + 1))
    ∧ start <= hourCeil start < start + msPerHour
    ∧ localMs (hourCeil start) mod msPerHour = 0
    ∧ start <= tick0 < start + 2 * msPerHour
    ∧ localMs tick0 mod (2 * msPerHour) = 0
    ∧ StronglySorted Z.lt ticks
    ∧ Forall (λ t, tick0 <= t <= end_
                   ∧ localMs t mod (2 * msPerHour) = 0) ticks
    ∧ (∀ t, tick0 <= t <= end_ → (t - tick0) mod (2 * msPerHour) = 0 →
            t ∈ ticks)
    ∧ (ticks ≠ [] ↔ tick0 <= end_)
    ∧ (start + 2 * msPerHour <= end_ → ticks ≠ []).
Proof.
  intros Hfirst Hfinal start end_ tick0.
  assert (firstTick start = tick0) as Htick0 by apply firstTick_rounding.
  destruct (firstTick_even_hour start) as (Hrange & Heven & _ & _).
  rewrite Htick0 in Hrange, Heven.
  eexists. split.
  { unfold axisTicks. destruct visibleData as [|first' rest]; [done|].
    injection Hfirst as ->. rewrite Hfinal. fold start end_.
    by rewrite Htick0. }
  rewrite ticksLoop_seq.
  assert (0 <= (end_ - tick0) / (2 * msPerHour) ↔ tick0 <= end_) as Hcount.
  { unfold msPerHour. Z.to_euclidean_division_equations; lia. }
  assert (start <= hourCeil start < start + msPerHour
          ∧ localMs (hourCeil start) mod msPerHour = 0) as [Hhour Hhour'].
  { unfold hourCeil, localMs, msPerHour.
    Z.to_euclidean_division_equations; lia. }
  split; [reflexivity|].
  split; [exact Hhour|]. split; [exact Hhour'|].
  split; [exact Hrange|]. split; [exact Heven|].
  split; [|split; [|split; [|split; [split|]]]].
  - apply scaled_seq_sorted. unfold msPerHour. lia.
  - apply Forall_fmap, Forall_forall. intros k Hk. simpl.
    apply elem_of_seq in Hk.
    assert (Z.of_nat k <= (end_ - tick0) / (2 * msPerHour)) as Hk' by lia.
    split.
    + pose proof (Z.mul_div_le (end_ - tick0) (2 * msPerHour)
                    ltac:(unfold msPerHour; lia)).
      unfold msPerHour in *. nia.
    + revert Heven. unfold localMs.
      replace (tick0 + 2 * msPerHour * Z.of_nat k + tzOffset)
        with (tick0 + tzOffset + Z.of_nat k * (2 * msPerHour)) by lia.
      by rewrite Z_mod_plus_full.
  - intros t Ht Hmod. apply list_elem_of_fmap.
    exists (Z.to_nat ((t - tick0) / (2 * msPerHour))).
    assert (0 <= (t - tick0) / (2 * msPerHour)
              <= (end_ - tick0) / (2 * msPerHour)) as Hj.
    { split; [apply Z.div_pos; unfold msPerHour; lia|].
      apply Z.div_le_mono; unfold msPerHour; lia. }
    split.
    + rewrite Z2Nat.id by lia.
      pose proof (Z.div_mod (t - tick0) (2 * msPerHour)
                    ltac:(unfold msPerHour; lia)). lia.
    + apply elem_of_seq. lia.
  - intros Hne. apply Hcount.
    destruct (Z.to_nat _) eqn:Hn in Hne; [done|]. lia.
  - intros Hle. apply Hcount in Hle.
    destruct (Z.to_nat _) eqn:Hn; [lia|done].
  - intros Hle. assert (tick0 <= end_) as Hle' by lia.
    apply Hcount in Hle'.
    destruct (Z.to_nat _) eqn:Hn; [lia|done].
Qed.
End axis_ticks.

(** ** A zone with a steady offset *)

Section steady_offset.
Context `{Zone} `{Runtime}.
Variables lo hi : Z.
Hypothesis Hsteady : steadyOffset tzOffset lo hi.

Lemma LocalTime_steady t : lo <= t <= hi → ZonedDate.LocalTime t = localMs t.
Proof.
  intros Ht. unfold ZonedDate.LocalTime, localMs.
  by destruct (Hsteady t Ht) as [-> _].
Qed.

Lemma UTC_steady t : lo <= t <= hi → ZonedDate.UTC (localMs t) = t.
Proof.
  intros Ht. unfold ZonedDate.UTC, localMs.
  destruct (Hsteady t Ht) as [_ ->]. lia.
Qed.

Lemma getHours_steady t : lo <= t <= hi → ZonedDate.getHours t = getHours t.
Proof.
  intros Ht. unfold ZonedDate.getHours. by rewrite LocalTime_steady.
Qed.

Lemma setMinutes000_steady t :
  lo <= t - msPerHour → t <= hi →
  ZonedDate.setMinutes000 t = setMinutes000 t.
Proof.
  intros Hlo Hhi. unfold ZonedDate.setMinutes000, setMinutes000.
  rewrite LocalTime_steady by (unfold msPerHour in *; lia).
  assert (ZonedDate.Day (localMs t) * msPerDay
          + ZonedDate.HourFromTime (localMs t) * msPerHour
          = localMs (t - localMs t mod msPerHour)) as ->.
  { unfold ZonedDate.Day, ZonedDate.HourFromTime, localMs, msPerDay,
      msPerHour.
    remember (t + tzOffset) as L eqn:HL.
    Z.to_euclidean_division_equations; lia. }
  apply UTC_steady.
  pose proof (Z.mod_pos_bound (localMs t) msPerHour ltac:(by unfold msPerHour)).
  unfold msPerHour in *. lia.
Qed.

Lemma setHours_steady t h :
  lo <= t <= hi → lo <= setHours t h <= hi →
  ZonedDate.setHours t h = setHours t h.
Proof.
  intros Ht Hnew. unfold ZonedDate.setHours.
  rewrite LocalTime_steady by done.
  assert (ZonedDate.Day (localMs t) * msPerDay + h * msPerHour
          + localMs t mod msPerHour
          = localMs (setHours t h)) as ->.
  { unfold setHours, getHours, ZonedDate.Day, localMs, msPerDay, msPerHour.
    remember (t + tzOffset) as L eqn:HL.
    Z.to_euclidean_division_equations; lia. }
  by apply UTC_steady.
Qed.

Lemma firstTick_steady start :
  lo <= start - msPerHour → start + 2 * msPerHour <= hi →
  ZonedTicks.firstTick start = firstTick start.
Proof.
  intros Hlo Hhi. unfold ZonedTicks.firstTick, firstTick.
  rewrite setMinutes000_steady by (unfold msPerHour in *; lia).
  set (tick0 := setMinutes000 start).
  assert (start - msPerHour < tick0 <= start) as Htick0.
  { subst tick0. unfold setMinutes000.
    pose proof (Z.mod_pos_bound (localMs start) msPerHour
                  ltac:(by unfold msPerHour)). lia. }
  assert (ZonedDate.getHours tick0 = getHours tick0) as ->
    by (apply getHours_steady; unfold msPerHour in *; lia).
  assert ((if tick0 <? start
           then ZonedDate.setHours tick0 (getHours tick0 + 1) else tick0)
          = (if tick0 <? start
             then setHours tick0 (getHours tick0 + 1) else tick0)) as ->.
  { destruct (tick0 <? start); [|done]. apply setHours_steady.
    - unfold msPerHour in *. lia.
    - rewrite setHours_plus. unfold msPerHour in *. lia. }
  set (tick1 := if tick0 <? start
                then setHours tick0 (getHours tick0 + 1) else tick0).
  assert (start - msPerHour < tick1 <= start + msPerHour) as Htick1.
  { subst tick1. destruct (tick0 <? start); [|lia].
    rewrite setHours_plus. lia. }
  assert (ZonedDate.getHours tick1 = getHours tick1) as ->
    by (apply getHours_steady; unfold msPerHour in *; lia).
  destruct (negb _); [|done]. apply setHours_steady.
  - unfold msPerHour in *. lia.
  - rewrite setHours_plus. unfold msPerHour in *. lia.
Qed.

Lemma ticksLoop_steady end_ (fuel : nat) tick :
  lo <= tick → end_ + 2 * msPerHour <= hi →
  ZonedTicks.ticksLoop fuel end_ tick = OutOfFuel
  ∨ ZonedTicks.ticksLoop fuel end_ tick = Returned (ticksLoop end_ tick).
Proof.
  intros Hlo Hhi. revert tick Hlo.
  induction fuel as [|fuel IH]; intros tick Hlo;
    cbn [ZonedTicks.ticksLoop]; [by left|].
  rewrite (ticksLoop_unfold end_ tick).
  destruct (decide (tick <= end_)) as [Hle|]; [|by right].
  rewrite getHours_steady by (unfold msPerHour in *; lia).
  rewrite setHours_steady, setHours_plus;
    [|unfold msPerHour in *; lia
     |rewrite setHours_plus; unfold msPerHour in *; lia].
  destruct (IH (tick + 2 * msPerHour) ltac:(unfold msPerHour; lia))
    as [->| ->]; [by left|by right].
Qed.

Lemma ticksLoop_fuel end_ (fuel : nat) tick :
  lo <= tick → end_ + 2 * msPerHour <= hi →
  (length (ticksLoop end_ tick) < fuel)%nat →
  ZonedTicks.ticksLoop fuel end_ tick = Returned (ticksLoop end_ tick).
Proof.
  intros Hlo Hhi. revert tick Hlo.
  induction fuel as [|fuel IH]; intros tick Hlo Hfuel;
    cbn [ZonedTicks.ticksLoop]; [lia|].
  rewrite (ticksLoop_unfold end_ tick) in Hfuel |- *.
  destruct (decide (tick <= end_)) as [Hle|]; [|done].
  rewrite getHours_steady by (unfold msPerHour in *; lia).
  rewrite setHours_steady, setHours_plus;
    [|unfold msPerHour in *; lia
     |rewrite setHours_plus; unfold msPerHour in *; lia].
  rewrite IH; [done|unfold msPerHour; lia|]. simpl in Hfuel. lia.
Qed.

End steady_offset.

Section zoned_axis_ticks.
Context `{Zone} `{Runtime}.

End zoned_axis_ticks.

Lemma europeanZone_winter (standard lo hi : Z) :
  hi < 1711846800000 →
  @steadyOffset (europeanZone standard) standard lo hi.
Proof.
  intros Hhi t Ht. unfold LocalTZA, europeanZone.
  destruct (Z.leb_spec 1711846800000 t); [lia|]. cbn [andb].
  destruct (Z.ltb_spec (t + standard) (1711846800000 + (standard + 3600000)));
    [done|lia].
Qed.



(** Over the night in which the clocks went forward in Helsinki, the ticks
    at the local hours 0, 2, 4 and 6 are two hours, one hour and two hours
    apart. *)
Example axisTicks_clock_change_example :
  @ZonedTicks.axisTicks helsinkiZone 5 marchNight
  = Returned (Some [1711836000000; 1711843200000; 1711846800000;
                    1711854000000]).
Proof. vm_compute. reflexivity. Qed.

(** ** The visibility filter *)

Lemma StronglySorted_sublist {A} (R : relation A) (l k : list A) :
  l `sublist_of` k → StronglySorted R k → StronglySorted R l.
Proof.
  induction 1 as [|x l k Hlk IH|x l k Hlk IH]; intros Hk; [done|..].
  - apply StronglySorted_inv in Hk as [Hk Hx]. constructor; [by apply IH|].
    apply Forall_forall. intros y Hy.
    eapply (proj1 (Forall_forall _ _) Hx), elem_of_sublist; done.
  - apply StronglySorted_inv in Hk as [Hk _]. by apply IH.
Qed.

(** Claim C4.  With [showPast] the filter returns its input; without it, it
    returns the points with [timestamp + stepMs > now], as a subsequence of
    the input (same order, same records), so that no returned point has
    [timestamp + stepMs <= now]. *)
Theorem visibleData_filter (coloredData : list ChartDatum) (stepMs now : Z) :
  visibleData coloredData true stepMs now = coloredData
  ∧ visibleData coloredData false stepMs now
      = filter (λ point, timestamp point + stepMs > now) coloredData
  ∧ visibleData coloredData false stepMs now `sublist_of` coloredData
  ∧ (∀ point, point ∈ visibleData coloredData false stepMs now
              ↔ point ∈ coloredData ∧ timestamp point + stepMs > now)
  ∧ Forall (λ point, ¬ timestamp point + stepMs <= now)
      (visibleData coloredData false stepMs now).
Proof.
  unfold visibleData.
  split; [done|]. split; [|split; [|split]].
  - apply list_filter_iff. intros point. lia.
  - apply sublist_filter.
  - intros point. rewrite list_elem_of_filter.
    split; intros [? ?]; split; done || lia.
  - apply Forall_forall. intros point [? _]%list_elem_of_filter. lia.
Qed.

(** ** The "now" marker *)

(** Claim C7.  For a non-empty visible sequence the "now" marker is present
    exactly when [now] lies between the first and the last visible timestamp,
    both included; when present it is [now] itself; being an optional value
    there is at most one; and it is absent for an empty sequence. *)
Theorem nowLineTimestamp_within (visibleData : list ChartDatum)
    (first final : ChartDatum) (now : Z) :
  head visibleData = Some first → last visibleData = Some final →
  (nowLineTimestamp visibleData now = Some now
   ↔ timestamp first <= now <= timestamp final)
  ∧ (nowLineTimestamp visibleData now = None
     ↔ now < timestamp first ∨ timestamp final < now)
  ∧ (∀ t, nowLineTimestamp visibleData now = Some t → t = now)
  ∧ nowLineTimestamp [] now = None.
Proof.
  intros Hfirst Hfinal. unfold nowLineTimestamp.
  destruct visibleData as [|first' rest]; [done|].
  injection Hfirst as ->. rewrite Hfinal.
  destruct (Z.ltb_spec now (timestamp first));
    destruct (Z.ltb_spec (timestamp final) now); simpl.
  all: split; [split; intros; first [done|lia|congruence]|].
  all: split; [split; intros; first [done|lia|congruence]|].
  all: split; [intros t ?; congruence|done].
Qed.

Lemma nowLineTimestamp_within_witness :
  nowLineTimestamp gappy 1705270000000 = Some 1705270000000
  ∧ nowLineTimestamp gappy 1705290000000 = None.
Proof.
  destruct (nowLineTimestamp_within gappy
              (point 1705269600000 "2024-01-15" 5)
              (point 1705280400000 "2024-01-15" 6) 1705270000000)
    as (Hin & _); [reflexivity..|].
  destruct (nowLineTimestamp_within gappy
              (point 1705269600000 "2024-01-15" 5)
              (point 1705280400000 "2024-01-15" 6) 1705290000000)
    as (_ & Hout & _); [reflexivity..|].
  split; [apply Hin|apply Hout]; cbn; lia.
Defined.

(** ** Day-change markers *)

Section day_markers.
Context `{Runtime}.

Lemma markerStep_foldl halfStepMs markers lastDay rest :
  (foldl (markerStep halfStepMs) (markers, lastDay) rest).1
  = markers ++ (markerAt halfStepMs <$> dayChanges lastDay rest).
Proof.
  revert markers lastDay.
  induction rest as [|point rest IH]; intros markers lastDay; simpl.
  { by rewrite app_nil_r. }
  destruct (decide (dayKey point ≠ lastDay)) as [Hne|Heq].
  - rewrite IH, <- app_assoc. done.
  - apply dec_stable in Heq. rewrite IH. by rewrite Heq.
Qed.

Lemma dayChangeMarkers_changes first rest stepMs :
  dayChangeMarkers (first :: rest) stepMs
  = markerAt (stepMs / 2) <$> dayChanges (dayKey first) rest.
Proof. unfold dayChangeMarkers. by rewrite markerStep_foldl. Qed.

Lemma dayChanges_same_day key points :
  Forall (λ point, dayKey point = key) points → dayChanges key points = [].
Proof.
  induction 1 as [|point points Hkey _ IH]; simpl; [done|].
  rewrite Hkey. by destruct (decide (key ≠ key)).
Qed.

Lemma dayChanges_app key points points' :
  Forall (λ point, dayKey point = key) points →
  dayChanges key (points ++ points') = dayChanges key points'.
Proof.
  induction 1 as [|point points Hkey _ IH]; simpl; [done|].
  rewrite Hkey. by destruct (decide (key ≠ key)).
Qed.

(** Claim C6.  For 24 points of one day followed by 24 points of another
    there is exactly one marker, half a step before the timestamp of the
    first point of the second day, labelled with the capitalised short
    weekday, the day and the month of that point.  In general there is one
    marker for every point whose day key differs from that of the point
    before it, and none when all points share one day key. *)
Theorem dayChangeMarkers_two_days (day1 day2 : list ChartDatum)
    (key1 key2 : string) (boundary : ChartDatum) (stepMinutes : Z) :
  length day1 = 24%nat → length day2 = 24%nat →
  Forall (λ point, dayKey point = key1) day1 →
  Forall (λ point, dayKey point = key2) day2 →
  key1 ≠ key2 →
  head day2 = Some boundary →
  let date := timestamp boundary in
  dayChangeMarkers (day1 ++ day2) (stepMs stepMinutes)
  = [ {| marker_x := date - stepMs stepMinutes / 2;
         marker_label :=
           capitalize (weekdayShortFormatter date) +:+ " "
             +:+ pretty (getDate date) +:+ "."
             +:+ pretty (getMonth date + 1) |} ]
  ∧ 2 * (stepMs stepMinutes / 2) = stepMs stepMinutes
  ∧ (∀ first rest stepMs,
       dayChangeMarkers (first :: rest) stepMs
       = markerAt (stepMs / 2) <$> dayChanges (dayKey first) rest)
  ∧ (∀ visibleData key stepMs,
       Forall (λ point, dayKey point = key) visibleData →
       dayChangeMarkers visibleData stepMs = []).
Proof.
  intros Hlen1 Hlen2 Hday1 Hday2 Hne Hboundary date.
  split; [|split; [|split]].
  - destruct day1 as [|first rest1]; [done|].
    destruct day2 as [|boundary' rest2]; [done|].
    injection Hboundary as ->.
    apply Forall_cons in Hday1 as [Hfirst Hrest1].
    apply Forall_cons in Hday2 as [Hb Hrest2].
    change ((first :: rest1) ++ boundary :: rest2)
      with (first :: (rest1 ++ boundary :: rest2)).
    rewrite dayChangeMarkers_changes, Hfirst, dayChanges_app by done.
    simpl. rewrite Hb. destruct (decide (key2 ≠ key1)) as [_|Heq].
    + by rewrite dayChanges_same_day.
    + apply dec_stable in Heq. congruence.
  - unfold stepMs.
    replace (stepMinutes * 60 * 1000) with ((stepMinutes * 30000) * 2) by lia.
    rewrite Z.div_mul by lia. lia.
  - apply dayChangeMarkers_changes.
  - intros [|first rest] key stepMs' Hall; [done|].
    apply Forall_cons in Hall as [Hfirst Hrest].
    rewrite dayChangeMarkers_changes, Hfirst.
    by rewrite dayChanges_same_day.
Qed.
End day_markers.

Lemma dayChangeMarkers_two_days_witness :
  @dayChangeMarkers helsinki twoDays (stepMs 60)
  = [ {| marker_x := 1705356000000 - 1800000; marker_label := "Ti 16.1" |} ].
Proof.
  refine (proj1 (@dayChangeMarkers_two_days helsinki
                   (take 24 twoDays) (drop 24 twoDays)
                   "2024-01-15" "2024-01-16"
                   (default (point 0 "" 0) (twoDays !! 24%nat)) 60
                   _ _ _ _ _ _)).
  - reflexivity.
  - reflexivity.
  - vm_compute. repeat constructor.
  - vm_compute. repeat constructor.
  - discriminate.
  - reflexivity.
Defined.

(** ** Binary64: signs of rounded results *)

Lemma shr_1_nonneg mrs : 0 <= shr_m mrs → 0 <= shr_m (shr_1 mrs).
Proof. destruct mrs as [[|[p|p|]|p] r s]; simpl; lia. Qed.

Lemma iter_pos_shr_1_nonneg p mrs :
  0 <= shr_m mrs → 0 <= shr_m (SpecFloat.iter_pos shr_1 p mrs).
Proof.
  revert mrs. induction p as [p IH|p IH|]; intros mrs Hm; simpl.
  - by apply IH, IH, shr_1_nonneg.
  - by apply IH, IH.
  - by apply shr_1_nonneg.
Qed.

Lemma shr_fexp_nonneg m e l :
  0 <= m → 0 <= shr_m (shr_fexp prec emax m e l).1.
Proof.
  intros Hm. unfold shr_fexp, shr.
  assert (shr_m (shr_record_of_loc m l) = m) as Hrecord
    by (by destruct l as [|[]]).
  destruct (_ - e) as [|p|p]; simpl; rewrite ?Hrecord; try done.
  apply iter_pos_shr_1_nonneg. by rewrite Hrecord.
Qed.

Lemma round_nearest_even_nonneg m l :
  0 <= m → 0 <= round_nearest_even m l.
Proof.
  intros Hm. destruct l as [|[]]; simpl; try lia.
  destruct (Z.even m); lia.
Qed.

Lemma binary_round_aux_signed s m e l :
  0 <= m → signed s (binary_round_aux prec emax s m e l).
Proof.
  intros Hm. unfold binary_round_aux.
  pose proof (shr_fexp_nonneg m e l Hm) as Hfirst.
  destruct (shr_fexp prec emax m e l) as [mrs' e'].
  pose proof (shr_fexp_nonneg
                (round_nearest_even (shr_m mrs') (loc_of_shr_record mrs'))
                e' loc_Exact
                (round_nearest_even_nonneg _ _ Hfirst)) as Hsecond.
  destruct (shr_fexp prec emax _ e' loc_Exact) as [mrs'' e''].
  simpl in Hsecond.
  destruct (shr_m mrs'') as [|p|p]; [by left| |lia].
  destruct (e'' <=? emax - prec); [right; left; by eauto|by right; right].
Qed.

Lemma binary_round_signed s m e : signed s (binary_round prec emax s m e).
Proof.
  unfold binary_round. destruct (shl_align _ _ _) as [mz ez].
  by apply binary_round_aux_signed.
Qed.

Lemma binary_normalize_signed m e :
  ∃ s, signed s (binary_normalize prec emax m e false).
Proof.
  destruct m as [|p|p]; simpl.
  - exists false. by left.
  - exists false. apply binary_round_signed.
  - exists true. apply binary_round_signed.
Qed.

Lemma SFsub_signed x sy my ey :
  x ≠ S754_nan → ∃ s, signed s (SF64sub x (S754_finite sy my ey)).
Proof.
  intros Hx. destruct x as [sx|sx| |sx mx ex]; simpl; [| |done|].
  - exists (negb sy). right. left. by eauto.
  - exists sx. by right; right.
  - apply binary_normalize_signed.
Qed.

Lemma SFdiv_core_binary_nonneg mx ex my ey :
  0 <= (SFdiv_core_binary prec emax (Z.pos mx) ex (Z.pos my) ey).1.1.
Proof.
  unfold SFdiv_core_binary.
  set (shift := _ - _ - _).
  set (m' := match shift with
             | 0 => Z.pos mx | Z.pos _ => Z.shiftl (Z.pos mx) shift
             | Z.neg _ => 0 end).
  assert (0 <= m') as Hm'.
  { subst m'. destruct shift; [lia| |lia]. by apply Z.shiftl_nonneg. }
  pose proof (Z.div_pos m' (Z.pos my) Hm' ltac:(lia)) as Hq.
  unfold Z.div in Hq. by destruct (Z.div_eucl m' (Z.pos my)).
Qed.

Lemma SFdiv_signed s x sy my ey :
  signed s x → signed (xorb s sy) (SF64div x (S754_finite sy my ey)).
Proof.
  intros [->|[(m & e & ->)| ->]]; simpl; [by left| |by right; right].
  pose proof (SFdiv_core_binary_nonneg m e my ey) as Hq.
  destruct (SFdiv_core_binary _ _ _ _ _ _) as [[mz ez] lz].
  by apply binary_round_aux_signed.
Qed.

Lemma SFmul_signed s x sy my ey :
  signed s x → signed (xorb s sy) (SF64mul x (S754_finite sy my ey)).
Proof.
  intros [->|[(m & e & ->)| ->]]; simpl; [by left| |by right; right].
  by apply binary_round_aux_signed.
Qed.

(** ** Binary64: whole numbers and comparisons *)

Lemma digits2_pos_lower p : 2 ^ (Z.pos (digits2_pos p) - 1) <= Z.pos p.
Proof.
  induction p as [p IH|p IH|]; simpl digits2_pos; [| |done].
  all: rewrite Pos2Z.inj_succ.
  all: replace (Z.succ (Z.pos (digits2_pos p)) - 1)
         with (Z.succ (Z.pos (digits2_pos p) - 1)) by lia.
  all: rewrite Z.pow_succ_r by lia; lia.
Qed.

Lemma digits2_pos_iter p k :
  Z.pos (digits2_pos (Pos.iter xO p k)) = Z.pos (digits2_pos p) + Z.pos k.
Proof.
  induction k as [|k IH] using Pos.peano_ind.
  - simpl. lia.
  - rewrite Pos.iter_succ. simpl digits2_pos. lia.
Qed.

Lemma shr_fexp_exact m e :
  fexp prec emax (Z.pos (digits2_pos m) + e) = e →
  shr_fexp prec emax (Z.pos m) e loc_Exact
  = ({| shr_m := Z.pos m; shr_r := false; shr_s := false |}, e).
Proof.
  intros Hcanonical. unfold shr_fexp. cbn [Zdigits2].
  by rewrite Hcanonical, Z.sub_diag.
Qed.

Lemma binary_round_aux_exact s m e :
  fexp prec emax (Z.pos (digits2_pos m) + e) = e → e <= emax - prec →
  binary_round_aux prec emax s (Z.pos m) e loc_Exact = S754_finite s m e.
Proof.
  intros Hcanonical Hbound. unfold binary_round_aux.
  rewrite (shr_fexp_exact m e Hcanonical).
  cbn [shr_m loc_of_shr_record round_nearest_even].
  rewrite (shr_fexp_exact m e Hcanonical). cbn [shr_m].
  match goal with |- (if ?b then _ else _) = _ => destruct b eqn:Hle end;
    [done|].
  apply Z.leb_gt in Hle. lia.
Qed.

Lemma binary_normalize_whole p :
  Z.pos p < 2 ^ 53 →
  ∃ m e, binary_normalize prec emax (Z.pos p) 0 false
         = S754_finite false m e.
Proof.
  intros Hp. simpl. unfold binary_round.
  pose proof (digits2_pos_lower p) as Hlower.
  set (d := Z.pos (digits2_pos p)) in *.
  assert (1 <= d <= 53) as Hd.
  { split; [subst d; lia|]. destruct (Z.le_gt_cases d 53) as [|Hgt]; [done|].
    assert (2 ^ 53 <= 2 ^ (d - 1)); [|lia].
    apply Z.pow_le_mono_r; lia. }
  assert (fexp prec emax (d + 0) = d - 53) as Hfexp.
  { unfold fexp, emin, prec, emax. lia. }
  rewrite Hfexp. unfold shl_align.
  destruct (d - 53 - 0) as [|k|k] eqn:Hshift; [|lia|].
  - exists p, 0. apply binary_round_aux_exact.
    + fold d. rewrite Hfexp. lia.
    + unfold emax, prec. lia.
  - exists (Pos.iter xO p k), (d - 53). apply binary_round_aux_exact.
    + rewrite digits2_pos_iter. fold d.
      replace (d + Z.pos k + (d - 53)) with (d + 0) by lia.
      by rewrite Hfexp.
    + unfold emax, prec. lia.
Qed.

Lemma toNumber_finite (count : nat) :
  0 < Z.of_nat count < 2 ^ 32 →
  ∃ m e, Prim2SF (toNumber count) = S754_finite false m e.
Proof.
  intros Hcount. unfold toNumber. rewrite of_uint63_spec.
  change Uint63Axioms.to_Z with Uint63.to_Z.
  rewrite Uint63.of_Z_spec, Z.mod_small.
  - destruct (Z.of_nat count) as [|p|p] eqn:Hp; [lia| |lia].
    apply binary_normalize_whole. lia.
  - change Uint63.wB with (2 ^ 63). lia.
Qed.

Lemma SFltb_zero_true x :
  SFltb (S754_zero false) x = true →
  (∃ m e, x = S754_finite false m e) ∨ x = S754_infinity false.
Proof.
  destruct x as [s|[]| |[] m e]; try done; [by right|left; by eauto].
Qed.

Lemma SFltb_zero_false s x :
  signed s x → SFltb (S754_zero false) x = false →
  (∃ s', x = S754_zero s') ∨ s = true.
Proof.
  intros [->|[(m & e & ->)| ->]]; [left; by eauto|..];
    destruct s; try done; by right.
Qed.

Lemma SFeqb_refl s x : signed s x → SFeqb x x = true.
Proof.
  intros [->|[(m & e & ->)| ->]]; unfold SFeqb; simpl; [done| |by destruct s].
  destruct s; rewrite Z.compare_refl, Pos.compare_cont_refl; done.
Qed.

Lemma is_nan_false x :
  PrimFloat.is_nan x = false ↔ Prim2SF x ≠ S754_nan.
Proof.
  unfold PrimFloat.is_nan. rewrite FloatAxioms.eqb_spec. split.
  - intros Heq Hnan. rewrite Hnan in Heq. done.
  - intros Hx. apply negb_false_iff.
    destruct (Prim2SF x) as [s|s| |s m e]; [| |done|].
    + by apply (SFeqb_refl s); left.
    + by apply (SFeqb_refl s); right; right.
    + apply (SFeqb_refl s). right. left. by eauto.
Qed.

Lemma signed_not_nan s x : signed s x → x ≠ S754_nan.
Proof. by intros [->|[(m & e & ->)| ->]]. Qed.

Lemma not_nan_signed x : x ≠ S754_nan → ∃ s, signed s x.
Proof.
  destruct x as [s|s| |s m e]; [| |done|]; intros _; exists s.
  - by left.
  - by right; right.
  - right. left. by eauto.
Qed.

Lemma Math_max0_signed s x :
  signed s (Prim2SF x) → signed false (Prim2SF (Math_max0 x)).
Proof.
  intros Hx. unfold Math_max0.
  rewrite (proj2 (is_nan_false x)) by by eapply signed_not_nan.
  rewrite FloatAxioms.ltb_spec. change (Prim2SF 0) with (S754_zero false).
  destruct (SFltb (S754_zero false) (Prim2SF x)) eqn:Hlt; [|by left].
  apply SFltb_zero_true in Hlt as [(m & e & ->)| ->];
    [right; left; by eauto|by right; right].
Qed.

Lemma floor_signed_false x :
  signed false x →
  match x with
  | S754_zero _ => True
  | S754_infinity negative => negative = false
  | S754_nan => False
  | S754_finite negative m e =>
      0 <= (let v := if negative then Z.neg m else Z.pos m in
            if 0 <=? e then v * 2 ^ e else v / 2 ^ (- e))
  end.
Proof.
  intros [->|[(m & e & ->)| ->]]; [done| |done]. simpl.
  destruct (Z.leb_spec 0 e).
  - apply Z.mul_nonneg_nonneg; [lia|]. by apply Z.pow_nonneg.
  - apply Z.div_pos; [lia|]. apply Z.pow_pos_nonneg; lia.
Qed.

Lemma floor_signed_true x :
  signed true x →
  match x with
  | S754_zero _ => True
  | S754_infinity negative => negative = true
  | S754_nan => False
  | S754_finite negative m e =>
      (let v := if negative then Z.neg m else Z.pos m in
       if 0 <=? e then v * 2 ^ e else v / 2 ^ (- e)) < 0
  end.
Proof.
  intros [->|[(m & e & ->)| ->]]; [done| |done]. simpl.
  destruct (Z.leb_spec 0 e).
  - apply Z.mul_neg_pos; [lia|]. apply Z.pow_pos_nonneg; lia.
  - apply Z.div_lt_upper_bound; [apply Z.pow_pos_nonneg; lia|lia].
Qed.

(** ** The layout sizer *)

Lemma floored_share_signed s x (count : nat) :
  0 < Z.of_nat count < 2 ^ 32 →
  signed s (Prim2SF x) →
  signed s (Prim2SF (x / toNumber count * 0x1.d70a3d70a3d71p-1)%float).
Proof.
  intros Hcount Hx.
  destruct (toNumber_finite count Hcount) as (m & e & Hlength).
  rewrite mul_spec, div_spec, Hlength.
  change (Prim2SF 0x1.d70a3d70a3d71p-1)
    with (S754_finite false 8286623314361713 (-53)).
  rewrite <- (xorb_false_r s) at 1. apply SFmul_signed.
  rewrite <- (xorb_false_r s) at 1. by apply SFdiv_signed.
Qed.

Lemma atLeastOne_floor_positive x :
  signed false (Prim2SF x) →
  atLeastOne (Math_floor64 x) = Infinite false
  ∨ ∃ value, atLeastOne (Math_floor64 x) = Integer value ∧ 1 <= value.
Proof.
  intros Hx. pose proof (floor_signed_false _ Hx) as Hfloor.
  unfold Math_floor64.
  destruct (Prim2SF x) as [s|s| |s m e]; simpl in *.
  - right. by exists 1.
  - left. by rewrite Hfloor.
  - done.
  - right. eexists. split; [done|lia].
Qed.

Lemma atLeastOne_floor_negative s x :
  signed s (Prim2SF x) →
  SFltb (S754_zero false) (Prim2SF x) = false →
  atLeastOne (Math_floor64 x) = Integer 1.
Proof.
  intros Hx Hlt.
  destruct (SFltb_zero_false s _ Hx Hlt) as [[s' Hzero]| ->].
  { unfold Math_floor64. by rewrite Hzero. }
  pose proof (floor_signed_true _ Hx) as Hfloor.
  unfold Math_floor64.
  destruct (Prim2SF x) as [s|s| |s m e]; simpl in *.
  - done.
  - by rewrite Hfloor.
  - done.
  - f_equal. lia.
Qed.

Lemma share_not_positive s x (count : nat) :
  0 < Z.of_nat count < 2 ^ 32 →
  signed s (Prim2SF x) →
  SFltb (S754_zero false) (Prim2SF x) = false →
  SFltb (S754_zero false)
    (Prim2SF (x / toNumber count * 0x1.d70a3d70a3d71p-1)%float) = false.
Proof.
  intros Hcount Hx Hlt.
  destruct (toNumber_finite count Hcount) as (m & e & Hlength).
  destruct (SFltb_zero_false s _ Hx Hlt) as [[s' Hzero]| ->].
  - rewrite mul_spec, div_spec, Hlength, Hzero. by destruct s'.
  - pose proof (floored_share_signed true x count Hcount Hx) as Hshare.
    by destruct Hshare as [->|[(m' & e' & ->)| ->]].
Qed.

Lemma difference_signed (width : float) :
  Prim2SF width ≠ S754_nan → ∃ s, signed s (Prim2SF (width - 16)%float).
Proof.
  intros Hwidth. rewrite sub_spec.
  change (Prim2SF 16) with (S754_finite false 4503599627370496 (-48)).
  by apply SFsub_signed.
Qed.



(** At this width the exact value of [(width - 16) * 0.92] is below 8; its
    binary64 product is 8, which is what the code returns. *)
Example barSize_rounding_example :
  Prim2SF 0x1.8b21642c8590bp+4 = S754_finite false 6951208120506635 (-48)
  ∧ barSize (Some (6951208120506635 # 281474976710656)%Q) 1 = Some 7
  ∧ barSize_binary64 (Some 0x1.8b21642c8590bp+4%float) 1 = Some (Integer 8).
Proof. by vm_compute. Qed.

(** ** The normalizer and the order of the pipeline *)

Lemma coloredData_fmap (chartData : list ChartDatum) (pointsPerHour : Z) :
  coloredData chartData pointsPerHour
  = (λ point, withFill point
                (colorOf (dayMeta chartData pointsPerHour) point))
      <$> chartData.
Proof. unfold coloredData. by destruct chartData. Qed.

Section pipeline_order.
Context `{Runtime}.

Lemma toDatum_Some useTax valueMultiplier item point :
  toDatum useTax valueMultiplier item = Some point →
  ∃ record dateTime rawPrice,
    item = Some record
    ∧ DateTime record = Some dateTime ∧ dateTime ≠ ""%string
    ∧ (if useTax then PriceWithTax record else PriceNoTax record)
      = Some rawPrice
    ∧ Date_parse dateTime = Some (timestamp point)
    ∧ price point = (rawPrice * valueMultiplier)%Q
    ∧ dayKey point = formatDayKey (timestamp point)
    ∧ fill point = None.
Proof.
  unfold toDatum. destruct item as [record|]; [|done].
  destruct (DateTime record) as [[|c dateTime]|] eqn:Hdate; try done.
  destruct (if useTax then PriceWithTax record else PriceNoTax record)
    as [rawPrice|] eqn:Hprice; [|done].
  destruct (Date_parse (String c dateTime)) as [date|] eqn:Hparse; [|done].
  intros [= <-]. exists record, (String c dateTime), rawPrice.
  split_and!; done.
Qed.

(** Claim C5.  The normalizer's output is sorted by non-decreasing
    timestamp and consists of the points of the records that have a
    non-empty date string, a selected price and a valid date; a record
    without date string or without the selected price yields no point.
    Colouring changes nothing but the fill of each point and filtering
    keeps a subsequence, so the coloured and the visible sequences are
    sorted as well. *)
Theorem pipeline_sorted (data : option (list (option SpotPrice)))
    (useTax : bool) (valueMultiplier : Q) (pointsPerHour stepMs now : Z)
    (showPast : bool) :
  let points := chartData data useTax valueMultiplier in
  let colored := coloredData points pointsPerHour in
  let visible := visibleData colored showPast stepMs now in
  StronglySorted byTime points
  ∧ points ≡ₚ omap (toDatum useTax valueMultiplier) (default [] data)
  ∧ (∀ point, point ∈ points →
       ∃ record dateTime rawPrice,
         Some record ∈ default [] data
         ∧ DateTime record = Some dateTime ∧ dateTime ≠ ""%string
         ∧ (if useTax then PriceWithTax record else PriceNoTax record)
           = Some rawPrice
         ∧ Date_parse dateTime = Some (timestamp point)
         ∧ price point = (rawPrice * valueMultiplier)%Q)
  ∧ (∀ record,
       DateTime record = None
       ∨ (if useTax then PriceWithTax record else PriceNoTax record) = None →
       toDatum useTax valueMultiplier (Some record) = None)
  ∧ Forall2 (λ point tagged, ∃ color, tagged = withFill point color)
      points colored
  ∧ StronglySorted byTime colored
  ∧ visible `sublist_of` colored
  ∧ StronglySorted byTime visible.
Proof.
  intros points colored visible.
  assert (StronglySorted byTime points) as Hpoints.
  { apply (sort_by_Z_sorted timestamp). }
  assert (points ≡ₚ omap (toDatum useTax valueMultiplier) (default [] data))
    as Hperm by apply sort_Permutation.
  assert (StronglySorted byTime colored) as Hcolored.
  { subst colored. rewrite coloredData_fmap.
    by apply (StronglySorted_fmap _ byTime byTime). }
  assert (visible `sublist_of` colored) as Hsub.
  { subst visible. unfold visibleData. destruct showPast; [done|].
    apply sublist_filter. }
  split; [done|]. split; [done|].
  split; [|split; [|split; [|split; [done|split; [done|]]]]].
  - intros point Hpoint. rewrite Hperm in Hpoint.
    apply list_elem_of_omap in Hpoint as (item & Hitem & Hdatum).
    apply toDatum_Some in Hdatum
      as (record & dateTime & rawPrice & -> & ? & ? & ? & ? & ? & _).
    by exists record, dateTime, rawPrice.
  - intros record [Hnone|Hnone]; unfold toDatum; rewrite Hnone; [done|].
    by destruct (DateTime record) as [[|??]|].
  - subst colored. rewrite coloredData_fmap. apply Forall2_fmap_r.
    apply Forall_Forall2_diag, Forall_forall. intros point _. by eexists.
  - by eapply StronglySorted_sublist.
Qed.
End pipeline_order.

Lemma pipeline_sorted_witness :
  StronglySorted byTime
    (@chartData helsinki (Some (tuesday ++ monday)) true 100).
Proof.
  exact (proj1 (@pipeline_sorted helsinki (Some (tuesday ++ monday)) true 100
                  1 3600000 0 false)).
Defined.

(** ** The interval of a regular series *)

Lemma stepMinutes_regular (chartData : list ChartDatum) (d : Z) :
  (2 ≤ length chartData)%nat → 0 < d →
  (∀ i p q, chartData !! i = Some p → chartData !! S i = Some q →
            timestamp q - timestamp p = d) →
  stepMinutes chartData =
    if (d + 30000) / 60000 =? 0 then 60 else (d + 30000) / 60000.
Proof.
  intros Hlen Hd Hstep.
  assert (Forall (λ diff, diff = d) (timestampDiffs chartData)) as Hall.
  { apply Forall_lookup. intros i diff Hdiff.
    assert (i < length (timestampDiffs chartData))%nat as Hi
      by (by eapply lookup_lt_Some).
    rewrite timestampDiffs_length in Hi.
    destruct (lookup_lt_is_Some_2 chartData i) as [p Hp]; [lia|].
    destruct (lookup_lt_is_Some_2 chartData (S i)) as [q Hq]; [lia|].
    rewrite (timestampDiffs_lookup _ _ _ _ Hp Hq) in Hdiff.
    injection Hdiff as <-. by eapply Hstep. }
  assert (positiveDiffs chartData ≠ []) as Hne.
  { destruct (lookup_lt_is_Some_2 (timestampDiffs chartData) 0)
      as [diff Hdiff].
    { rewrite timestampDiffs_length. lia. }
    assert (diff ∈ positiveDiffs chartData) as Hin.
    { apply list_elem_of_filter. split; [|by eapply list_elem_of_lookup_2].
      by rewrite (proj1 (Forall_lookup _ _) Hall _ _ Hdiff). }
    intros Hnil. rewrite Hnil in Hin. by apply not_elem_of_nil in Hin. }
  destruct (stepMinutes_median chartData Hlen Hne) as (median & Hm & _ & ->).
  assert (median = d) as ->; [|done].
  assert (median ∈ positiveDiffs chartData) as Hin.
  { rewrite <- sortedDiffs_Permutation. by eapply list_elem_of_lookup_2. }
  apply list_elem_of_filter in Hin as [_ Hin].
  by apply (proj1 (Forall_forall _ _) Hall).
Qed.

(** ** Grouping by day *)

Lemma grouped_foldl (chartData : list ChartDatum)
    (start : gmap string (list ChartDatum)) (key : string) :
  foldl (λ grouped point,
           let bucket := default [] (grouped !! dayKey point) in
           <[dayKey point := bucket ++ [point]]> grouped)
        start chartData !! key
  = match filter (λ point, dayKey point = key) chartData with
    | [] => start !! key
    | bucket => Some (default [] (start !! key) ++ bucket)
    end.
Proof.
  revert start. induction chartData as [|point rest IH]; intros start; [done|].
  simpl. rewrite IH, filter_cons.
  destruct (decide (dayKey point = key)) as [->|Hne].
  - rewrite lookup_insert_eq. simpl.
    destruct (filter _ rest); by rewrite <- ?app_assoc.
  - by rewrite lookup_insert_ne.
Qed.

Lemma grouped_lookup (chartData : list ChartDatum) (key : string) :
  grouped chartData !! key
  = match filter (λ point, dayKey point = key) chartData with
    | [] => None
    | bucket => Some bucket
    end.
Proof. unfold grouped. rewrite grouped_foldl. by destruct (filter _ _). Qed.

Lemma filter_all {A} (P : A → Prop) `{∀ x, Decision (P x)} (l : list A) :
  Forall P l → filter P l = l.
Proof.
  induction 1 as [|x l Hx _ IH]; [done|].
  rewrite filter_cons, decide_True by done. by rewrite IH.
Qed.

Lemma grouped_single_day (chartData : list ChartDatum) (day : string) :
  chartData ≠ [] → Forall (λ point, dayKey point = day) chartData →
  grouped chartData !! day = Some chartData.
Proof.
  intros Hne Hday. rewrite grouped_lookup, filter_all by done.
  by destruct chartData.
Qed.

(** ** Ranks *)

Lemma ranksOf_snoc sorted point :
  ranksOf (sorted ++ [point])
  = <[timestamp point := Z.of_nat (length sorted)]> (ranksOf sorted).
Proof.
  unfold ranksOf. rewrite imap_app, foldl_app. simpl.
  by rewrite Nat.add_0_r.
Qed.

Lemma ranksOf_lookup sorted i point :
  NoDup (timestamp <$> sorted) → sorted !! i = Some point →
  ranksOf sorted !! timestamp point = Some (Z.of_nat i).
Proof.
  revert i point. induction sorted as [|final sorted IH] using rev_ind;
    intros i point Hdup Hi; [done|].
  rewrite ranksOf_snoc. rewrite fmap_app in Hdup.
  apply NoDup_app in Hdup as (Hdup & Hfresh & _).
  destruct (decide (i < length sorted)%nat) as [Hlt|Hge].
  - rewrite lookup_app_l in Hi by done.
    rewrite lookup_insert_ne; [by apply IH|].
    intros Heq. apply (Hfresh (timestamp point)).
    + apply list_elem_of_fmap. exists point. split; [done|].
      by eapply list_elem_of_lookup_2.
    + rewrite <- Heq. simpl. apply list_elem_of_singleton. done.
  - rewrite lookup_app_r in Hi by lia.
    destruct (i - length sorted)%nat eqn:Hdiff; [|done].
    injection Hi as ->. assert (i = length sorted) as -> by lia.
    by rewrite lookup_insert_eq.
Qed.

(** ** Sorting by price *)

Lemma precedes_signQ (a b : ChartDatum) :
  precedes (λ a b, signQ (price a - price b)) a b ↔ byPrice a b.
Proof.
  unfold precedes, signQ, byPrice. rewrite <- Qle_alt.
  rewrite (Qle_minus_iff (price a - price b) 0), (Qle_minus_iff (price a)).
  assert (0 + - (price a - price b) == price b + - price a)%Q as -> by ring.
  done.
Qed.

Lemma sort_by_price_sorted (points : list ChartDatum) :
  StronglySorted byPrice (sort (λ a b, signQ (price a - price b)) points).
Proof.
  eapply StronglySorted_weaken; [|apply sort_StronglySorted].
  - intros a b. apply precedes_signQ.
  - intros a b Hab. apply precedes_signQ. unfold byPrice.
    apply Qlt_le_weak, Qnot_le_lt. intros Hle.
    apply (proj2 (precedes_signQ a b)) in Hle. by apply Hle.
  - intros a b c Hab Hbc. apply precedes_signQ.
    apply precedes_signQ in Hab, Hbc. unfold byPrice in *.
    by eapply Qle_trans.
Qed.

Lemma sorted_strictly (sorted : list ChartDatum) :
  StronglySorted byPrice sorted → NoDup (priceKey <$> sorted) →
  StronglySorted (λ a b, (price a < price b)%Q) sorted.
Proof.
  induction 1 as [|a sorted _ IH Ha]; intros Hdup; constructor.
  - apply IH. by apply NoDup_cons in Hdup as [_ ?].
  - apply Forall_forall. intros b Hb.
    apply NoDup_cons in Hdup as [Hfresh _].
    destruct (Qle_lt_or_eq _ _ (proj1 (Forall_forall _ _) Ha b Hb))
      as [?|Heq]; [done|].
    destruct Hfresh. apply list_elem_of_fmap. exists b. split; [|done].
    unfold priceKey. by apply Qred_complete.
Qed.

Lemma filter_none {A} (P : A → Prop) `{∀ x, Decision (P x)} (l : list A) :
  Forall (λ x, ¬ P x) l → filter P l = [].
Proof.
  induction 1 as [|x l Hx _ IH]; [done|].
  by rewrite filter_cons, decide_False.
Qed.

Lemma filter_fmap_length {A B} (f : A → B) (P : B → Prop)
    `{∀ y, Decision (P y)} (l : list A) :
  length (filter P (f <$> l)) = length (filter (λ x, P (f x)) l).
Proof.
  induction l as [|x l IH]; [done|].
  rewrite fmap_cons, !filter_cons.
  destruct (decide (P (f x))); simpl; by rewrite IH.
Qed.

Lemma cheaper_sorted (sorted : list ChartDatum) i point :
  StronglySorted (λ a b, (price a < price b)%Q) sorted →
  sorted !! i = Some point → cheaper sorted point = i.
Proof.
  intros Hsorted. revert i.
  induction Hsorted as [|a sorted _ IH Ha]; intros i Hi; [done|].
  unfold cheaper in *. rewrite filter_cons. destruct i as [|i]; simpl in Hi.
  - injection Hi as ->. rewrite decide_False by apply Qlt_irrefl.
    rewrite filter_none; [done|].
    eapply Forall_impl; [exact Ha|]. intros b Hab Hba.
    apply (Qlt_irrefl (price point)). by apply (Qlt_trans _ (price b)).
  - rewrite decide_True.
    + simpl. f_equal. by apply IH.
    + apply (proj1 (Forall_forall _ _) Ha). by eapply list_elem_of_lookup_2.
Qed.

Lemma cheaper_Permutation (points points' : list ChartDatum) point :
  points ≡ₚ points' → cheaper points point = cheaper points' point.
Proof. intros Hperm. unfold cheaper. by rewrite Hperm. Qed.

Lemma cheaper_withFill points point color :
  cheaper points (withFill point color) = cheaper points point.
Proof. done. Qed.

(** ** The colour of a point of a single day *)

Lemma colorOf_single_day (chartData : list ChartDatum) (day : string)
    (pointsPerHour : Z) (point : ChartDatum) :
  Forall (λ point, dayKey point = day) chartData →
  NoDup (timestamp <$> chartData) →
  NoDup (priceKey <$> chartData) →
  point ∈ chartData →
  colorOf (dayMeta chartData pointsPerHour) point
  = tierColor (Z.of_nat (cheaper chartData point))
      (Z.min (Z.of_nat (length chartData)) (6 * pointsPerHour))
      (Z.min (Z.of_nat (length chartData)) (12 * pointsPerHour)).
Proof.
  intros Hday Htimes Hprices Hpoint.
  set (sorted := sort (λ a b, signQ (price a - price b)) chartData).
  assert (sorted ≡ₚ chartData) as Hperm by apply sort_Permutation.
  assert (dayMeta chartData pointsPerHour !! dayKey point
          = Some (dayMetaOf pointsPerHour chartData)) as Hmeta.
  { unfold dayMeta. rewrite lookup_fmap.
    rewrite (proj1 (Forall_forall _ _) Hday point Hpoint).
    rewrite grouped_single_day; [done| |done].
    intros ->. by apply not_elem_of_nil in Hpoint. }
  assert (point ∈ sorted) as Hin by by rewrite Hperm.
  apply list_elem_of_lookup in Hin as [rank Hrank].
  assert (ranks (dayMetaOf pointsPerHour chartData) !! timestamp point
          = Some (Z.of_nat rank)) as Hranks.
  { apply (ranksOf_lookup sorted); [|done]. by rewrite Hperm. }
  assert (cheaper chartData point = rank) as Hcheaper.
  { rewrite <- (cheaper_Permutation sorted) by done.
    apply cheaper_sorted; [|done]. apply sorted_strictly.
    - apply sort_by_price_sorted.
    - by rewrite Hperm. }
  unfold colorOf, tierColor. rewrite Hmeta.
  change (Some (dayMetaOf pointsPerHour chartData)
            ≫= λ m, ranks m !! timestamp point)
    with (ranks (dayMetaOf pointsPerHour chartData) !! timestamp point).
  by rewrite Hranks, Hcheaper.
Qed.

Lemma count_by_rank (sorted : list ChartDatum) (rank : ChartDatum → nat)
    (P : nat → Prop) {decP : ∀ n, Decision (P n)}
    (Q : ChartDatum → Prop) {decQ : ∀ point, Decision (Q point)} :
  (∀ point, Q point ↔ P (rank point)) →
  (∀ i point, sorted !! i = Some point → rank point = i) →
  length (filter Q sorted) = length (filter P (seq 0 (length sorted))).
Proof.
  intros HQ Hrank. rewrite (list_filter_iff Q (λ point, P (rank point))) by done.
  rewrite <- filter_fmap_length. f_equal. f_equal.
  apply list_eq. intros i. rewrite list_lookup_fmap.
  destruct (sorted !! i) as [point|] eqn:Hi; simpl.
  - rewrite (Hrank _ _ Hi). symmetry. apply lookup_seq. split; [done|].
    by eapply lookup_lt_Some.
  - symmetry. apply lookup_ge_None. rewrite length_seq.
    by apply lookup_ge_None.
Qed.

Lemma filter_ext_in {A} (P1 P2 : A → Prop)
    `{∀ x, Decision (P1 x)} `{∀ x, Decision (P2 x)} (l : list A) :
  (∀ x, x ∈ l → P1 x ↔ P2 x) → filter P1 l = filter P2 l.
Proof.
  induction l as [|x l IH]; intros Hiff; [done|].
  rewrite !filter_cons, IH.
  - destruct (decide (P1 x)) as [H1|H1], (decide (P2 x)) as [H2|H2];
      try done; apply Hiff in H1 || apply Hiff in H2; done || constructor.
  - intros y Hy. apply Hiff. by constructor.
Qed.

Lemma cheaper_is_rank (chartData : list ChartDatum) i point :
  NoDup (priceKey <$> chartData) →
  sort (λ a b, signQ (price a - price b)) chartData !! i = Some point →
  cheaper chartData point = i.
Proof.
  intros Hprices Hi.
  rewrite <- (cheaper_Permutation _ _ _
                (sort_Permutation (λ a b, signQ (price a - price b))
                   chartData)).
  apply cheaper_sorted; [|done]. apply sorted_strictly.
  - apply sort_by_price_sorted.
  - by rewrite sort_Permutation.
Qed.

Lemma countFill_single_day (chartData : list ChartDatum) (day : string)
    (pointsPerHour : Z) (color : string) :
  Forall (λ point, dayKey point = day) chartData →
  NoDup (timestamp <$> chartData) →
  NoDup (priceKey <$> chartData) →
  countFill color (coloredData chartData pointsPerHour)
  = length
      (filter (λ rank : nat,
                 tierColor (Z.of_nat rank)
                   (Z.min (Z.of_nat (length chartData)) (6 * pointsPerHour))
                   (Z.min (Z.of_nat (length chartData)) (12 * pointsPerHour))
                 = color)
              (seq 0 (length chartData))).
Proof.
  intros Hday Htimes Hprices.
  set (green := Z.min (Z.of_nat (length chartData)) (6 * pointsPerHour)).
  set (yellow := Z.min (Z.of_nat (length chartData)) (12 * pointsPerHour)).
  unfold countFill. rewrite coloredData_fmap, filter_fmap_length.
  rewrite (filter_ext_in _
             (λ point, tierColor (Z.of_nat (cheaper chartData point))
                         green yellow = color)).
  - pose (P := λ rank : nat, tierColor (Z.of_nat rank) green yellow = color).
    set (sorted := sort (λ a b, signQ (price a - price b)) chartData).
    transitivity
      (length (filter (λ point, P (cheaper chartData point)) sorted)).
    { apply Permutation_length. subst sorted. by rewrite sort_Permutation. }
    etrans; [apply (count_by_rank sorted (cheaper chartData) P)|].
    + done.
    + intros i point. by apply cheaper_is_rank.
    + subst sorted. by rewrite sort_length.
  - intros point Hpoint. simpl.
    rewrite (colorOf_single_day chartData day) by done.
    fold green yellow. split; [by intros [= ->]|by intros ->].
Qed.

(** ** Twenty-four hourly points of one day *)

(** Claim C3.  For 24 points of one day, one hour apart, with pairwise
    different prices, the estimated [pointsPerHour] is 1, exactly 6 points
    are tagged low, 6 mid and 12 high, and the tag of a point is decided by
    the number of strictly cheaper points of the day: low below 6, mid below
    12, high from 12 on.  So the low points are the 6 cheapest. *)
Theorem coloredData_single_day (chartData : list ChartDatum) (day : string)
    (t0 : Z) :
  length chartData = 24%nat →
  Forall (λ point, dayKey point = day) chartData →
  (∀ i point, chartData !! i = Some point →
              timestamp point = t0 + Z.of_nat i * 3600000) →
  (∀ i j p q, chartData !! i = Some p → chartData !! j = Some q → i ≠ j →
              ¬ (price p == price q)%Q) →
  let colored := coloredData chartData (pointsPerHour (stepMinutes chartData)) in
  pointsPerHour (stepMinutes chartData) = 1
  ∧ countFill PRICE_COLORS.low colored = 6%nat
  ∧ countFill PRICE_COLORS.mid colored = 6%nat
  ∧ countFill PRICE_COLORS.high colored = 12%nat
  ∧ (∀ i point, chartData !! i = Some point →
       colored !! i
       = Some (withFill point
                 (tierColor (Z.of_nat (cheaper chartData point)) 6 12)))
  ∧ (∀ tagged, tagged ∈ colored →
       (fill tagged = Some PRICE_COLORS.low
        ↔ (cheaper chartData tagged < 6)%nat)).
Proof.
  intros Hlen Hday Hhourly Hdistinct colored.
  assert (stepMinutes chartData = 60) as Hstep.
  { rewrite (stepMinutes_regular chartData 3600000); [done|lia|lia|].
    intros i p q Hp Hq. rewrite (Hhourly _ _ Hp), (Hhourly _ _ Hq). lia. }
  assert (pointsPerHour (stepMinutes chartData) = 1) as Hpph
    by by rewrite Hstep.
  assert (NoDup (timestamp <$> chartData)) as Htimes.
  { apply NoDup_alt. intros i j t [p [-> Hp]]%list_lookup_fmap_Some
      [q [Heq Hq]]%list_lookup_fmap_Some.
    rewrite (Hhourly _ _ Hp), (Hhourly _ _ Hq) in Heq. lia. }
  assert (NoDup (priceKey <$> chartData)) as Hprices.
  { apply NoDup_alt. intros i j key [p [-> Hp]]%list_lookup_fmap_Some
      [q [Heq Hq]]%list_lookup_fmap_Some.
    destruct (decide (i = j)) as [|Hne]; [done|].
    destruct (Hdistinct i j p q Hp Hq Hne). by apply Qred_eq_iff. }
  assert (∀ i point, chartData !! i = Some point →
            colored !! i
            = Some (withFill point
                      (tierColor (Z.of_nat (cheaper chartData point)) 6 12)))
    as Hcolor.
  { intros i point Hi. subst colored.
    rewrite coloredData_fmap, list_lookup_fmap, Hi. simpl.
    rewrite (colorOf_single_day chartData day), Hpph, Hlen;
      [done..|by eapply list_elem_of_lookup_2]. }
  subst colored. rewrite Hpph in *.
  split; [done|].
  rewrite !(countFill_single_day chartData day) by done. rewrite Hlen.
  split; [done|]. split; [done|]. split; [done|]. split; [done|].
  intros tagged [i Hi]%list_elem_of_lookup.
  destruct (lookup_lt_is_Some_2 chartData i) as [point Hpoint].
  { apply lookup_lt_Some in Hi.
    by rewrite coloredData_fmap, length_fmap in Hi. }
  rewrite (Hcolor _ _ Hpoint) in Hi. injection Hi as <-.
  rewrite cheaper_withFill. unfold tierColor. simpl.
  destruct (Z.ltb_spec (Z.of_nat (cheaper chartData point)) 6).
  - split; [lia|done].
  - split; [|lia]. by destruct (_ <? 12).
Qed.

Lemma distinct_prices (chartData : list ChartDatum) :
  NoDup (priceKey <$> chartData) →
  ∀ i j p q, chartData !! i = Some p → chartData !! j = Some q → i ≠ j →
             ¬ (price p == price q)%Q.
Proof.
  intros Hdup i j p q Hp Hq Hne Heq. apply Hne.
  apply (proj1 (NoDup_alt _) Hdup i j (priceKey p)).
  - by rewrite list_lookup_fmap, Hp.
  - rewrite list_lookup_fmap, Hq. simpl. f_equal. unfold priceKey.
    symmetry. by apply Qred_complete.
Qed.

Lemma hourly_timestamps (chartData : list ChartDatum) (t0 : Z) :
  timestamp <$> chartData
  = (λ i : nat, t0 + Z.of_nat i * 3600000) <$> seq 0 (length chartData) →
  ∀ i point, chartData !! i = Some point →
             timestamp point = t0 + Z.of_nat i * 3600000.
Proof.
  intros Heq i point Hi.
  assert ((timestamp <$> chartData) !! i = Some (timestamp point)) as Hlookup
    by by rewrite list_lookup_fmap, Hi.
  rewrite Heq, list_lookup_fmap in Hlookup.
  destruct (seq 0 (length chartData) !! i) as [k|] eqn:Hk; [|done].
  apply lookup_seq in Hk as [-> _]. by injection Hlookup as <-.
Qed.

Lemma coloredData_single_day_witness :
  let colored := coloredData mondayPoints
                   (pointsPerHour (stepMinutes mondayPoints)) in
  countFill PRICE_COLORS.low colored = 6%nat
  ∧ countFill PRICE_COLORS.mid colored = 6%nat
  ∧ countFill PRICE_COLORS.high colored = 12%nat.
Proof.
  pose proof
    (coloredData_single_day mondayPoints "2024-01-15" 1705269600000
       ltac:(reflexivity)
       ltac:(by apply (bool_decide_unpack _); vm_compute)
       ltac:(apply hourly_timestamps; by vm_compute)
       ltac:(apply distinct_prices; by apply (bool_decide_unpack _);
             vm_compute))
    as Hday.
  cbv zeta in Hday. destruct Hday as (_ & Hlow & Hmid & Hhigh & _).
  intros colored. split; [exact Hlow|split; [exact Hmid|exact Hhigh]].
Defined.

(** ** The proxy route *)

Lemma get_cons_eq name value params :
  get name ((name, value) :: params) = Some value.
Proof. unfold get. simpl. by rewrite decide_True. Qed.

Lemma get_cons_ne name key value params :
  key ≠ name → get name ((key, value) :: params) = get name params.
Proof.
  intros Hne. unfold get. simpl. rewrite decide_False by done.
  by destruct (list_find _ params) as [[? [? ?]]|].
Qed.

Lemma get_filter_ne name other params :
  name ≠ other →
  get name (filter (λ p : string * string, p.1 ≠ other) params)
  = get name params.
Proof.
  intros Hne. induction params as [|[key value] params IH]; [done|].
  rewrite filter_cons. simpl.
  destruct (decide (key ≠ other)) as [Hkey|Hkey].
  - destruct (decide (key = name)) as [->|Hkn].
    + by rewrite !get_cons_eq.
    + by rewrite !get_cons_ne.
  - apply dec_stable in Hkey as ->. by rewrite IH, get_cons_ne.
Qed.

Lemma get_set_eq name value params :
  get name (set name value params) = Some value.
Proof.
  induction params as [|[key value'] params IH]; simpl.
  - apply get_cons_eq.
  - destruct (decide (key = name)) as [->|Hne].
    + apply get_cons_eq.
    + by rewrite get_cons_ne.
Qed.

Lemma get_set_ne name other value params :
  name ≠ other → get name (set other value params) = get name params.
Proof.
  intros Hne. induction params as [|[key value'] params IH]; simpl.
  - by rewrite get_cons_ne.
  - destruct (decide (key = other)) as [->|Hko].
    + by rewrite !get_cons_ne, get_filter_ne.
    + destruct (decide (key = name)) as [->|Hkn].
      * by rewrite !get_cons_eq.
      * by rewrite !get_cons_ne.
Qed.

Section route.
Context `{Host}.

Lemma forwardRegion_get searchParams name :
  get name (forwardRegion searchParams [])
  = if decide (name = "region"%string)
    then toUpperCase <$> truthy (get "region" searchParams) else None.
Proof.
  unfold forwardRegion.
  destruct (truthy (get "region" searchParams)) as [region|].
  - destruct (decide (name = "region"%string)) as [->|Hne].
    + by rewrite get_set_eq.
    + by rewrite get_set_ne.
  - by destruct (decide _).
Qed.

Lemma forwardFlag_get flag searchParams upstreamParams name :
  get name (forwardFlag flag searchParams upstreamParams)
  = if decide (name = flag)
    then match forwardedFlag (get flag searchParams) with
         | Some value => Some value
         | None => get name upstreamParams
         end
    else get name upstreamParams.
Proof.
  unfold forwardFlag, forwardedFlag.
  destruct (get flag searchParams) as [value|]; [|by destruct (decide _)].
  destruct (bool_decide (value = "true"%string)
            || bool_decide (value = "false"%string));
    [|by destruct (decide _)].
  destruct (decide (name = flag)) as [->|Hne].
  - by rewrite get_set_eq.
  - by rewrite get_set_ne.
Qed.

Lemma checkPriceResolution_spec searchParams upstreamParams :
  (invalidPriceResolution searchParams
   ∧ checkPriceResolution searchParams upstreamParams
     = Return (json_error "priceResolution must be 15 or 60." 400))
  ∨ (¬ invalidPriceResolution searchParams
     ∧ ∃ upstreamParams',
         checkPriceResolution searchParams upstreamParams
         = Continue upstreamParams'
         ∧ ∀ name, name ≠ "priceResolution"%string →
                   get name upstreamParams' = get name upstreamParams).
Proof.
  unfold checkPriceResolution, invalidPriceResolution.
  destruct (truthy (get "priceResolution" searchParams)) as [value|].
  - destruct (includes [15; 60] (Number value)) eqn:Hvalid; simpl.
    + right. split; [intros (v & [= <-] & Hv); congruence|].
      eexists. split; [done|]. intros name Hne. by rewrite get_set_ne.
    + left. split; [by exists value|done].
  - right. split; [by intros (v & ? & _)|]. by eexists.
Qed.

Lemma checkLookForwardHours_spec searchParams upstreamParams :
  (invalidLookForwardHours searchParams
   ∧ checkLookForwardHours searchParams upstreamParams
     = Return (json_error
                 "lookForwardHours must be an integer between 1 and 6."
                 400))
  ∨ (¬ invalidLookForwardHours searchParams
     ∧ ∃ upstreamParams',
         checkLookForwardHours searchParams upstreamParams
         = Continue upstreamParams'
         ∧ ∀ name, name ≠ "lookForwardHours"%string →
                   get name upstreamParams' = get name upstreamParams).
Proof.
  unfold checkLookForwardHours, invalidLookForwardHours.
  destruct (truthy (get "lookForwardHours" searchParams)) as [value|].
  - destruct (isInteger (Number value)) eqn:Hint,
      (lessThan (Number value) 1) eqn:Hlt,
      (greaterThan (Number value) 6) eqn:Hgt; simpl.
    all: try (left; split; [exists value; by auto|done]).
    right. split; [intros (v & [= <-] & [?|[?|?]]); congruence|].
    eexists. split; [done|]. intros name Hne. by rewrite get_set_ne.
  - right. split; [by intros (v & ? & _)|]. by eexists.
Qed.

Lemma upstreamRequest_spec searchParams :
  ((invalidType searchParams ∨ invalidPriceResolution searchParams
    ∨ invalidLookForwardHours searchParams)
   ∧ ∃ error, upstreamRequest searchParams = Return (json_error error 400))
  ∨ (¬ (invalidType searchParams ∨ invalidPriceResolution searchParams
        ∨ invalidLookForwardHours searchParams)
     ∧ ∃ upstreamUrl,
         upstreamRequest searchParams = Continue upstreamUrl
         ∧ origin upstreamUrl = BASE_URL
         ∧ get "region" (search upstreamUrl)
           = toUpperCase <$> truthy (get "region" searchParams)
         ∧ get "HomeAssistant" (search upstreamUrl)
           = forwardedFlag (get "HomeAssistant" searchParams)
         ∧ get "HomeAssistant15Min" (search upstreamUrl)
           = forwardedFlag (get "HomeAssistant15Min" searchParams)
         ∧ ∀ key, resolveType (get "type" searchParams)
                  = Some (Endpoint key) →
                  pathname upstreamUrl = ENDPOINTS key).
Proof.
  unfold upstreamRequest, checkType, invalidType.
  destruct (resolveType (get "type" searchParams)) as [type|]; simpl.
  2: { left. split; [by left|by eexists]. }
  destruct (checkPriceResolution_spec searchParams
              (forwardRegion searchParams []))
    as [[Hbad ->]|(Hok & params1 & -> & Hparams1)]; simpl.
  { left. split; [by right; left|by eexists]. }
  destruct (checkLookForwardHours_spec searchParams params1)
    as [[Hbad ->]|(Hok' & params2 & -> & Hparams2)]; simpl.
  { left. split; [by right; right|by eexists]. }
  right. split; [intros [?|[?|?]]; done|].
  eexists. split; [done|]. simpl.
  rewrite !forwardFlag_get. simpl.
  rewrite !Hparams2, !Hparams1, !forwardRegion_get by done. simpl.
  split; [done|]. split; [done|].
  split; [by destruct (forwardedFlag _)|].
  split; [by destruct (forwardedFlag _)|].
  by intros key [= ->].
Qed.

Lemma passThrough_status upstreamUrl :
  status (passThrough upstreamUrl) = 502
  ↔ fetch upstreamUrl = FetchThrows
    ∨ (∃ status contentType,
         fetch upstreamUrl = FetchResponse status contentType None)
    ∨ (∃ status contentType text,
         fetch upstreamUrl = FetchResponse status contentType (Some text)
         ∧ (responseInitOk status = false ∨ status = 502)).
Proof.
  unfold passThrough.
  destruct (fetch upstreamUrl) as [|code contentType [text|]].
  - split; [by left|done].
  - destruct (responseInitOk code) eqn:Hok; simpl.
    + split.
      * intros ->. right. right. exists 502, contentType, text. by auto.
      * intros [?|[(? & ? & ?)|(? & ? & ? & [= -> _ _] & [?|?])]];
          congruence.
    + split; [|done]. intros _. right. right.
      exists code, contentType, text. by auto.
  - split; [|done]. intros _. right. left. by exists code, contentType.
Qed.

End route.



Lemma GET_upstream_502_example :
  let host :=
    hostAnswering (FetchResponse 502 (Some "text/html") (Some "Bad Gateway")) in
  let url := {| origin := BASE_URL; pathname := "/Today"; search := [] |} in
  @upstreamRequest host [] = Continue url
  ∧ @fetch host url ≠ FetchThrows
  ∧ status (@GET host []) = 502.
Proof. by vm_compute. Qed.

(** A type that names an inherited property of the alias object is not
    rejected: the lookup [TYPE_ALIASES[...]] finds it in [Object.prototype],
    [ENDPOINTS[type]] is [undefined] and the handler fetches the path
    [/undefined]. *)
Example GET_inherited_type_example :
  let host :=
    hostAnswering (FetchResponse 200 (Some "application/json") (Some "[]")) in
  @resolveType host (Some "constructor") = Some Inherited
  ∧ @upstreamRequest host [("type", "constructor")]
    = Continue {| origin := BASE_URL; pathname := "/undefined";
                  search := [] |}
  ∧ status (@GET host [("type", "__proto__")]) = 200.
Proof. by vm_compute. Qed.


(** * Further properties *)

Import Page.

(** ** The summary statistics *)

Lemma foldl_Qmin_spec (first : Q) (rest : list Q) :
  foldl Qmin first rest ∈ first :: rest
  ∧ Forall (λ v, (foldl Qmin first rest <= v)%Q) (first :: rest).
Proof.
  revert first. induction rest as [|x rest IH]; intros first; simpl.
  { split; [by left|]. constructor; [apply Qle_refl|constructor]. }
  destruct (IH (Qmin first x)) as [Hin Hle].
  apply Forall_cons in Hle as [Hhead Hrest]. split.
  - apply elem_of_cons in Hin as [->|Hin]; [|by do 2 right].
    unfold Qmin, GenericMinMax.gmin. destruct (first ?= x)%Q.
    + by left.
    + by left.
    + right. by left.
  - constructor; [|constructor; [|done]].
    + eapply Qle_trans; [exact Hhead|apply Q.le_min_l].
    + eapply Qle_trans; [exact Hhead|apply Q.le_min_r].
Qed.

Lemma foldl_Qmax_spec (first : Q) (rest : list Q) :
  foldl Qmax first rest ∈ first :: rest
  ∧ Forall (λ v, (v <= foldl Qmax first rest)%Q) (first :: rest).
Proof.
  revert first. induction rest as [|x rest IH]; intros first; simpl.
  { split; [by left|]. constructor; [apply Qle_refl|constructor]. }
  destruct (IH (Qmax first x)) as [Hin Hle].
  apply Forall_cons in Hle as [Hhead Hrest]. split.
  - apply elem_of_cons in Hin as [->|Hin]; [|by do 2 right].
    unfold Qmax, GenericMinMax.gmax. destruct (first ?= x)%Q.
    + by left.
    + right. by left.
    + by left.
  - constructor; [|constructor; [|done]].
    + eapply Qle_trans; [apply Q.le_max_l|exact Hhead].
    + eapply Qle_trans; [apply Q.le_max_r|exact Hhead].
Qed.

Lemma stats_cons (round : Q → Q) (first : ChartDatum)
    (rest : list ChartDatum) :
  ∃ avg,
    stats round (first :: rest)
    = Some {| stats_min := foldl Qmin (price first) (price <$> rest);
              stats_max := foldl Qmax (price first) (price <$> rest);
              stats_avg := avg |}.
Proof. by eexists. Qed.

(** Extra X1.  There is a summary exactly when there is a visible point.
    Its minimum and maximum are prices of visible points and bound every
    visible price (prices being numbers, none of them [NaN]).  This holds
    whatever the rounding of the average is;
    nothing is stated about the average, which rounding can move outside
    the two. *)
Theorem stats_bounds (round : Q → Q) (visibleData : list ChartDatum) :
  (stats round visibleData = None ↔ visibleData = [])
  ∧ ∀ summary, stats round visibleData = Some summary →
      Forall (λ point,
                (stats_min summary <= price point <= stats_max summary)%Q)
        visibleData
      ∧ (∃ point, point ∈ visibleData ∧ price point = stats_min summary)
      ∧ (∃ point, point ∈ visibleData ∧ price point = stats_max summary).
Proof.
  destruct visibleData as [|first rest]; [done|].
  destruct (stats_cons round first rest) as [avg ->].
  split; [done|]. intros summary [= <-].
  cbn [stats_min stats_max].
  destruct (foldl_Qmin_spec (price first) (price <$> rest)) as [Hmin Hlow].
  destruct (foldl_Qmax_spec (price first) (price <$> rest)) as [Hmax Hhigh].
  change (price first :: (price <$> rest))
    with (price <$> first :: rest) in *.
  split; [|split].
  - apply Forall_forall. intros point Hpoint.
    apply (list_elem_of_fmap_2 price) in Hpoint. split.
    + exact (proj1 (Forall_forall _ _) Hlow _ Hpoint).
    + exact (proj1 (Forall_forall _ _) Hhigh _ Hpoint).
  - apply list_elem_of_fmap in Hmin as (point & -> & Hpoint). by exists point.
  - apply list_elem_of_fmap in Hmax as (point & -> & Hpoint). by exists point.
Qed.

(** ** Colouring day by day *)

Lemma filter_fmap {A B} (f : A → B) (P : B → Prop)
    `{∀ y, Decision (P y)} (l : list A) :
  filter P (f <$> l) = f <$> filter (λ x, P (f x)) l.
Proof.
  induction l as [|x l IH]; [done|].
  rewrite fmap_cons, !filter_cons.
  destruct (decide (P (f x))); simpl; by rewrite IH.
Qed.

Lemma bucket_filter (chartData : list ChartDatum) (day : string) :
  filter (λ point, dayKey point = day)
    (filter (λ point, dayKey point = day) chartData)
  = filter (λ point, dayKey point = day) chartData.
Proof.
  apply filter_all, Forall_forall.
  intros point Hpoint. by apply list_elem_of_filter in Hpoint as [? _].
Qed.

Lemma dayMeta_bucket (chartData : list ChartDatum) (pointsPerHour : Z)
    (day : string) :
  dayMeta chartData pointsPerHour !! day
  = dayMeta (filter (λ point, dayKey point = day) chartData) pointsPerHour
      !! day.
Proof.
  unfold dayMeta. by rewrite !lookup_fmap, !grouped_lookup, bucket_filter.
Qed.

Lemma colorOf_ext (meta meta' : gmap string DayMeta) (point : ChartDatum) :
  meta !! dayKey point = meta' !! dayKey point →
  colorOf meta point = colorOf meta' point.
Proof. intros Heq. unfold colorOf. by rewrite Heq. Qed.

Lemma coloredData_bucket (chartData : list ChartDatum) (pointsPerHour : Z)
    (day : string) :
  filter (λ point, dayKey point = day) (coloredData chartData pointsPerHour)
  = coloredData (filter (λ point, dayKey point = day) chartData)
      pointsPerHour.
Proof.
  rewrite !coloredData_fmap, filter_fmap. simpl.
  apply list_fmap_ext. intros i point Hpoint. f_equal.
  apply list_elem_of_lookup_2, list_elem_of_filter in Hpoint as [Hday _].
  apply colorOf_ext. rewrite Hday. apply dayMeta_bucket.
Qed.

(** Extra X2.  For one and the same [pointsPerHour], the colours of the
    points of a day depend on the points of that day alone: [coloredData]
    colours a day alike in two series that hold the same points on that day,
    whatever else they hold.  (The component computes [pointsPerHour] from
    the whole series: other days matter through it, and only through it.) *)
Theorem coloredData_day_independent (chartData chartData' : list ChartDatum)
    (pointsPerHour : Z) (day : string) :
  filter (λ point, dayKey point = day) chartData
  = filter (λ point, dayKey point = day) chartData' →
  filter (λ point, dayKey point = day) (coloredData chartData pointsPerHour)
  = filter (λ point, dayKey point = day)
      (coloredData chartData' pointsPerHour).
Proof. intros Hsame. by rewrite !coloredData_bucket, Hsame. Qed.

Lemma coloredData_day_independent_witness :
  filter (λ point, dayKey point = "2024-01-15"%string)
    (coloredData twoDays 1)
  = filter (λ point, dayKey point = "2024-01-15"%string)
      (coloredData mondayPoints 1).
Proof.
  apply (coloredData_day_independent twoDays mondayPoints 1 "2024-01-15").
  by vm_compute.
Defined.

(** ** The size of the three tiers *)

Lemma tierColor_low (rank greenLimit yellowLimit : Z) :
  tierColor rank greenLimit yellowLimit = PRICE_COLORS.low
  ↔ rank < greenLimit.
Proof.
  unfold tierColor. destruct (Z.ltb_spec rank greenLimit); [done|].
  split; [|lia]. by destruct (rank <? yellowLimit).
Qed.

Lemma tierColor_mid (rank greenLimit yellowLimit : Z) :
  tierColor rank greenLimit yellowLimit = PRICE_COLORS.mid
  ↔ greenLimit <= rank < yellowLimit.
Proof.
  unfold tierColor. destruct (Z.ltb_spec rank greenLimit).
  { split; [done|lia]. }
  destruct (Z.ltb_spec rank yellowLimit); [done|]. split; [done|lia].
Qed.

Lemma tierColor_high (rank greenLimit yellowLimit : Z) :
  greenLimit <= yellowLimit →
  tierColor rank greenLimit yellowLimit = PRICE_COLORS.high
  ↔ yellowLimit <= rank.
Proof.
  intros Hlimits. unfold tierColor. destruct (Z.ltb_spec rank greenLimit).
  { split; [done|lia]. }
  destruct (Z.ltb_spec rank yellowLimit); [|done]. split; [done|lia].
Qed.

Lemma count_between (P : nat → Prop) `{∀ r, Decision (P r)}
    (from to count : nat) :
  (from ≤ to ≤ count)%nat →
  (∀ r, (r < count)%nat → P r ↔ (from ≤ r < to)%nat) →
  length (filter P (seq 0 count)) = (to - from)%nat.
Proof.
  intros Horder HP.
  replace count with (from + ((to - from) + (count - to)))%nat at 1 by lia.
  rewrite !seq_app, !filter_app, !length_app. simpl.
  rewrite (filter_none P (seq 0 from)), (filter_all P (seq from (to - from))),
    (filter_none P (seq (from + (to - from)) (count - to))).
  - simpl. rewrite length_seq. lia.
  - apply Forall_forall. intros r Hr%elem_of_seq. rewrite HP; lia.
  - apply Forall_forall. intros r Hr%elem_of_seq. apply HP; lia.
  - apply Forall_forall. intros r Hr%elem_of_seq. rewrite HP; lia.
Qed.

(** Extra X3.  In any chart, for a day whose points have pairwise different
    timestamps and prices: of its [n] points, [min n (6 * pointsPerHour)] are
    low, the next up to [min n (12 * pointsPerHour)] are mid and the rest are
    high, and the colour of a point is decided by the number of strictly
    cheaper points of that day. *)
Theorem coloredData_day_tiers (chartData : list ChartDatum)
    (pointsPerHour : Z) (day : string) :
  let bucket := filter (λ point, dayKey point = day) chartData in
  let tagged :=
    filter (λ point, dayKey point = day)
      (coloredData chartData pointsPerHour) in
  let count := Z.of_nat (length bucket) in
  let greenLimit := Z.min count (6 * pointsPerHour) in
  let yellowLimit := Z.min count (12 * pointsPerHour) in
  0 <= pointsPerHour →
  NoDup (timestamp <$> bucket) →
  NoDup (priceKey <$> bucket) →
  countFill PRICE_COLORS.low tagged = Z.to_nat greenLimit
  ∧ countFill PRICE_COLORS.mid tagged = Z.to_nat (yellowLimit - greenLimit)
  ∧ countFill PRICE_COLORS.high tagged = Z.to_nat (count - yellowLimit)
  ∧ tagged
    = (λ point,
         withFill point
           (tierColor (Z.of_nat (cheaper bucket point))
              greenLimit yellowLimit))
      <$> bucket.
Proof.
  intros bucket tagged count greenLimit yellowLimit Hpph Htimes Hprices.
  assert (Forall (λ point, dayKey point = day) bucket) as Hday.
  { apply Forall_forall. intros point Hpoint.
    by apply list_elem_of_filter in Hpoint as [? _]. }
  assert (tagged = coloredData bucket pointsPerHour) as ->
    by apply coloredData_bucket.
  rewrite !(countFill_single_day bucket day) by done.
  fold count greenLimit yellowLimit.
  assert (0 <= greenLimit <= yellowLimit ∧ yellowLimit <= count) as Hlimits
    by lia.
  split; [|split; [|split]].
  - rewrite (count_between _ 0 (Z.to_nat greenLimit)); [lia|lia|].
    intros r Hr. rewrite tierColor_low. lia.
  - rewrite (count_between _ (Z.to_nat greenLimit) (Z.to_nat yellowLimit));
      [lia|lia|].
    intros r Hr. rewrite tierColor_mid. lia.
  - rewrite (count_between _ (Z.to_nat yellowLimit) (length bucket));
      [lia|lia|].
    intros r Hr. rewrite tierColor_high by lia. lia.
  - rewrite coloredData_fmap. apply list_fmap_ext. intros i point Hpoint.
    f_equal. apply (colorOf_single_day bucket day); try done.
    by eapply list_elem_of_lookup_2.
Qed.

Lemma coloredData_day_tiers_witness :
  let tagged :=
    filter (λ point, dayKey point = "2024-01-16"%string)
      (coloredData twoDays 1) in
  countFill PRICE_COLORS.low tagged = 6%nat
  ∧ countFill PRICE_COLORS.mid tagged = 6%nat
  ∧ countFill PRICE_COLORS.high tagged = 12%nat.
Proof.
  pose proof
    (coloredData_day_tiers twoDays 1 "2024-01-16"
       ltac:(lia)
       ltac:(by apply (bool_decide_unpack _); vm_compute)
       ltac:(by apply (bool_decide_unpack _); vm_compute))
    as (Hlow & Hmid & Hhigh & _).
  intros tagged. split; [exact Hlow|split; [exact Hmid|exact Hhigh]].
Defined.

(** ** Dimmed bars and the visibility filter *)

(** Extra X4.  At one and the same instant, the bars that [showPast] dims
    are exactly the points that the filter hides without [showPast], and a
    point that stays visible without [showPast] is drawn at full opacity in
    both modes. *)
Theorem isPast_hidden (coloredData : list ChartDatum) (stepMs now : Z)
    (entry : ChartDatum) (showPast : bool) :
  entry ∈ coloredData →
  (isPast true now stepMs entry = true
   ↔ entry ∉ visibleData coloredData false stepMs now)
  ∧ (fillOpacity true now stepMs entry = (45 # 100)%Q
     ↔ entry ∉ visibleData coloredData false stepMs now)
  ∧ (entry ∈ visibleData coloredData false stepMs now →
     fillOpacity showPast now stepMs entry = 1%Q).
Proof.
  intros Hentry. unfold fillOpacity, isPast, visibleData.
  rewrite list_elem_of_filter.
  destruct (Z.leb_spec (timestamp entry + stepMs) now).
  - rewrite andb_true_r. split; [|split].
    + split; [|done]. intros _ [? _]. lia.
    + split; [|done]. intros _ [? _]. lia.
    + intros [? _]. lia.
  - rewrite !andb_false_r. split; [|split].
    + split; [done|]. intros Hhidden. destruct Hhidden. by split.
    + split; [done|]. intros Hhidden. destruct Hhidden. by split.
    + done.
Qed.

Lemma isPast_hidden_witness :
  isPast true 1705277000000 3600000 (point 1705269600000 "2024-01-15" 5)
  = true.
Proof.
  apply (isPast_hidden gappy 3600000 1705277000000
           (point 1705269600000 "2024-01-15" 5) true).
  - by left.
  - unfold visibleData. rewrite list_elem_of_filter.
    intros [Hcurrent _]. vm_compute in Hcurrent. discriminate.
Defined.

(** ** The "now" line and the first bar *)

(** Extra X5.  The filter and the "now" line read the clock separately,
    at [nowFilter] and at [nowLine].  Without [showPast], a "now" line that
    is shown lies at or after the timestamp of the first visible bar, and
    before the end of that bar's interval plus the time that passed
    between the two reads; when both reads give the same instant, it lies
    in the interval of the first visible bar. *)
Theorem nowLine_in_first_bar (coloredData : list ChartDatum)
    (stepMs nowFilter nowLine : Z) (first : ChartDatum) :
  let visible := visibleData coloredData false stepMs nowFilter in
  head visible = Some first →
  is_Some (nowLineTimestamp visible nowLine) →
  timestamp first <= nowLine
                  < timestamp first + stepMs + (nowLine - nowFilter)
  ∧ (nowLine = nowFilter →
     timestamp first <= nowLine < timestamp first + stepMs).
Proof.
  intros visible Hfirst [line Hline].
  assert (first ∈ visible) as Hin by by apply head_Some_elem_of.
  apply list_elem_of_filter in Hin as [Hcurrent _].
  assert (timestamp first <= nowLine) as Hstart.
  { unfold nowLineTimestamp in Hline.
    destruct visible as [|first' rest]; [done|]. injection Hfirst as ->.
    destruct (last (first :: rest)); [|done].
    destruct (Z.ltb_spec nowLine (timestamp first)); [done|lia]. }
  split; [lia|]. intros ->. lia.
Qed.

Lemma nowLine_in_first_bar_witness :
  let first := point 1705273200000 "2024-01-15" 4 in
  head (visibleData gappy false 3600000 1705275000000) = Some first
  ∧ timestamp first <= 1705275000040
                    < timestamp first + 3600000
                      + (1705275000040 - 1705275000000).
Proof.
  split; [by vm_compute|].
  exact (proj1 (nowLine_in_first_bar gappy 3600000 1705275000000
                  1705275000040 (point 1705273200000 "2024-01-15" 4)
                  eq_refl (ex_intro _ 1705275000040 eq_refl))).
Defined.

(** ** Annotations and the x axis *)

Lemma sorted_between (visibleData : list ChartDatum)
    (first final : ChartDatum) :
  StronglySorted byTime visibleData →
  head visibleData = Some first → last visibleData = Some final →
  Forall (λ point, timestamp first <= timestamp point <= timestamp final)
    visibleData.
Proof.
  intros Hsorted Hfirst Hfinal. apply Forall_forall. intros point Hpoint.
  split.
  - destruct visibleData as [|first' rest]; [done|]. injection Hfirst as ->.
    apply StronglySorted_inv in Hsorted as [_ Hrest].
    apply elem_of_cons in Hpoint as [->|Hpoint]; [done|].
    by apply (proj1 (Forall_forall _ _) Hrest).
  - apply last_Some in Hfinal as [front ->].
    apply elem_of_app in Hpoint as [Hpoint|Hpoint].
    + apply (StronglySorted_app_1_elem_of _ _ _ _ _ Hsorted Hpoint).
      by left.
    + apply list_elem_of_singleton in Hpoint as ->. done.
Qed.

Lemma dayChanges_sublist (previous : string) (points : list ChartDatum) :
  dayChanges previous points `sublist_of` points.
Proof.
  revert previous. induction points as [|point points IH]; intros previous.
  { done. }
  simpl. destruct (decide (dayKey point ≠ previous)).
  - by apply sublist_skip.
  - by apply sublist_cons.
Qed.

Section annotations.
Context `{Runtime}.

Lemma ticksLoop_range (end_ tick : Z) :
  localMs tick mod (2 * msPerHour) = 0 →
  Forall (λ t, tick <= t <= end_ ∧ localMs t mod (2 * msPerHour) = 0)
    (ticksLoop end_ tick).
Proof.
  intros Heven. rewrite ticksLoop_seq.
  apply Forall_fmap, Forall_forall. intros k Hk. simpl.
  apply elem_of_seq in Hk.
  assert (0 <= Z.of_nat k <= (end_ - tick) / (2 * msPerHour)) as Hk' by lia.
  split.
  - pose proof (Z.mul_div_le (end_ - tick) (2 * msPerHour)
                  ltac:(unfold msPerHour; lia)).
    unfold msPerHour in *. nia.
  - revert Heven. unfold localMs.
    replace (tick + 2 * msPerHour * Z.of_nat k + tzOffset)
      with (tick + tzOffset + Z.of_nat k * (2 * msPerHour)) by lia.
    by rewrite Z_mod_plus_full.
Qed.

Lemma axisTicks_range (visibleData : list ChartDatum) (ticks : list Z) :
  axisTicks visibleData = Some ticks →
  ∃ first final,
    head visibleData = Some first ∧ last visibleData = Some final
    ∧ Forall (λ t, timestamp first <= t <= timestamp final
                   ∧ localMs t mod (2 * msPerHour) = 0) ticks.
Proof.
  unfold axisTicks. destruct visibleData as [|first rest]; [done|].
  destruct (last (first :: rest)) as [final|] eqn:Hfinal; [|done].
  intros [= <-]. exists first, final. split; [done|]. split; [done|].
  destruct (firstTick_even_hour (timestamp first)) as (Hrange & Heven & _).
  eapply Forall_impl; [by apply ticksLoop_range|].
  intros t [Ht ?]. split; [lia|done].
Qed.


Lemma even_hour_label (tick : Z) :
  localMs tick mod (2 * msPerHour) = 0 →
  pretty (getHours tick)
  ∈ ["0"; "2"; "4"; "6"; "8"; "10"; "12"; "14"; "16"; "18"; "20";
     "22"]%string.
Proof.
  intros Heven.
  assert (0 <= getHours tick < 24 ∧ getHours tick mod 2 = 0) as [Hday Hpar].
  { split; [apply Z.mod_pos_bound; lia|].
    unfold getHours. rewrite Z.mod_mod_divide by (by exists 12).
    apply Z.mod_divide in Heven as [q Hq]; [|by unfold msPerHour].
    rewrite Hq.
    replace (q * (2 * msPerHour)) with ((2 * q) * msPerHour) by lia.
    rewrite Z.div_mul by (by unfold msPerHour).
    rewrite Z.mul_comm. by apply Z.mod_mul. }
  apply Z.mod_divide in Hpar as [half Hhalf]; [|lia].
  assert (half ∈ seqZ 0 12) as Hcases by (apply elem_of_seqZ; lia).
  rewrite Hhalf. revert Hcases. generalize half. clear.
  intros half Hcases. vm_compute in Hcases.
  repeat (apply elem_of_cons in Hcases as [->|Hcases];
          [vm_compute; repeat constructor|]).
  by apply not_elem_of_nil in Hcases.
Qed.

(** Extra X8.  When the visible timestamps strictly increase, the
    day-change markers stand at strictly increasing positions, so no two
    share one, and there are fewer markers than visible points. *)
Theorem dayChangeMarkers_positions (visibleData : list ChartDatum)
    (stepMs : Z) :
  StronglySorted (λ a b, timestamp a < timestamp b) visibleData →
  StronglySorted Z.lt (marker_x <$> dayChangeMarkers visibleData stepMs)
  ∧ NoDup (marker_x <$> dayChangeMarkers visibleData stepMs)
  ∧ (visibleData ≠ [] →
     (length (dayChangeMarkers visibleData stepMs) < length visibleData)%nat).
Proof.
  intros Hsorted.
  assert (StronglySorted Z.lt
            (marker_x <$> dayChangeMarkers visibleData stepMs)) as Hmarkers.
  { destruct visibleData as [|first rest]; [constructor|].
    rewrite dayChangeMarkers_changes, <- list_fmap_compose.
    apply (StronglySorted_fmap _ (λ a b, timestamp a < timestamp b)).
    { intros a b Hab. simpl. lia. }
    eapply StronglySorted_sublist; [apply dayChanges_sublist|].
    by apply StronglySorted_inv in Hsorted as [? _]. }
  split; [done|]. split.
  - clear Hsorted. induction Hmarkers as [|x xs _ IH Hx]; constructor.
    + intros Hin. apply (proj1 (Forall_forall _ _) Hx) in Hin. lia.
    + done.
  - intros Hpoints. destruct visibleData as [|first rest]; [done|].
    rewrite dayChangeMarkers_changes, length_fmap. simpl.
    pose proof (sublist_length _ _ (dayChanges_sublist (dayKey first) rest)).
    lia.
Qed.
End annotations.


Lemma dayChangeMarkers_positions_witness :
  NoDup (marker_x <$> @dayChangeMarkers helsinki twoDays 3600000).
Proof.
  apply (@dayChangeMarkers_positions helsinki twoDays 3600000).
  apply (@bool_decide_unpack _
           (@StronglySorted_dec _ (λ a b, timestamp a < timestamp b)
              (λ a b, decide (timestamp a < timestamp b)) twoDays)).
  by vm_compute.
Defined.

Section tick_labels.
Context `{Zone} `{Runtime}.

End tick_labels.


(** Over the night in which the clocks went forward in Berlin, the local
    hour 2 is skipped: the tick meant for it falls on hour 3, and the ticks
    after it on odd hours. *)
Example axisTicks_labels_clock_change_example :
  @ZonedTicks.axisTicks berlinZone 4 marchNight
  = Returned (Some [1711839600000; 1711846800000; 1711854000000])
  ∧ (λ tick, @ZonedTicks.hourTickFormatter berlinZone (TimeValue tick))
      <$> [1711839600000; 1711846800000; 1711854000000]
    = ["0"; "3"; "5"]%string.
Proof. by vm_compute. Qed.

(** ** Bars and the container *)

Lemma barSize_inv (width : Q) (count : nat) (size : Z) :
  barSize (Some width) count = Some size →
  (0 < count)%nat
  ∧ size = Z.max 1 (Qfloor (Qmax 0 (width - 16)
                            / inject_Z (Z.of_nat count) * (92 # 100))%Q).
Proof.
  unfold barSize, Math_floor. destruct (Qeq_bool width 0); [done|].
  destruct (Nat.eqb_spec count 0) as [|Hcount]; [done|]. cbn [orb].
  intros [= <-]. split; [lia|done].
Qed.

Lemma Qmax_0_nonneg (x : Q) : (0 <= Qmax 0 x)%Q.
Proof. apply Q.le_max_l. Qed.



(** ** Robustness of the interval and of the order *)

Lemma sorted_lookup_le (l : list Z) (i j : nat) (x y : Z) :
  StronglySorted Z.le l → l !! i = Some x → l !! j = Some y → (i ≤ j)%nat →
  x <= y.
Proof.
  intros Hsorted. revert i j.
  induction Hsorted as [|a l _ IH Ha]; intros i j Hi Hj Hij; [done|].
  destruct i as [|i], j as [|j]; simpl in *; try lia.
  - injection Hi as <-. injection Hj as <-. lia.
  - injection Hi as <-.
    apply (proj1 (Forall_forall _ _) Ha), (list_elem_of_lookup_2 _ _ _ Hj).
  - apply (IH i j); [done..|lia].
Qed.

Lemma filter_nil_not {A} (P : A → Prop) `{∀ x, Decision (P x)} (l : list A) :
  Forall (λ x, ¬ P x) l → filter P l = [].
Proof.
  induction 1 as [|x l Hx _ IH]; [done|].
  by rewrite filter_cons_False.
Qed.

Lemma majority_median (l : list Z) (d : Z) :
  StronglySorted Z.le l →
  (length l < 2 * length (filter (λ x, x = d) l))%nat →
  l !! (length l / 2)%nat = Some d.
Proof.
  intros Hsorted Hmajority.
  assert (0 < length l)%nat as Hpos.
  { destruct l; simpl in *; lia. }
  set (n := length l) in *. set (i := (n / 2)%nat).
  assert (i < n)%nat as Hi by (apply Nat.div_lt; lia).
  assert (n < 2 * i + 2)%nat as Hhalf.
  { pose proof (Nat.div_mod_eq n 2).
    pose proof (Nat.mod_upper_bound n 2 ltac:(lia)). fold i in H. lia. }
  assert (2 * i ≤ n)%nat as Hhalf'.
  { pose proof (Nat.div_mod_eq n 2). fold i in H. lia. }
  destruct (lookup_lt_is_Some_2 l i Hi) as [m Hm].
  rewrite Hm. f_equal.
  destruct (Z.lt_trichotomy m d) as [Hlt|[?|Hgt]]; [|done|]; exfalso.
  - rewrite <- (take_drop (S i) l), filter_app, length_app in Hmajority.
    rewrite (filter_nil_not _ (take (S i) l)) in Hmajority.
    + pose proof (length_filter (λ x, x = d) (drop (S i) l)) as Hle.
      rewrite length_drop in Hle. fold n in Hle. simpl in Hmajority. lia.
    + apply Forall_forall. intros x Hx.
      apply list_elem_of_lookup in Hx as [j Hj].
      apply lookup_take_Some in Hj as [Hj Hji].
      pose proof (sorted_lookup_le l j i x m Hsorted Hj Hm ltac:(lia)). lia.
  - rewrite <- (take_drop i l), filter_app, length_app in Hmajority.
    rewrite (filter_nil_not _ (drop i l)) in Hmajority.
    + pose proof (length_filter (λ x, x = d) (take i l)) as Hle.
      rewrite length_take in Hle. fold n in Hle. simpl in Hmajority. lia.
    + apply Forall_forall. intros x Hx.
      apply list_elem_of_lookup in Hx as [j Hj].
      rewrite lookup_drop in Hj.
      pose proof (sorted_lookup_le l i (i + j) m x Hsorted Hm Hj ltac:(lia)).
      lia.
Qed.

(** Extra X11.  When more than half of the positive gaps between
    successive points equal one value, [stepMinutes] is that value rounded
    to whole minutes (60 when it rounds to 0), whatever the other gaps. *)
Theorem stepMinutes_majority (chartData : list ChartDatum) (d : Z) :
  (2 ≤ length chartData)%nat →
  (length (positiveDiffs chartData)
   < 2 * length (filter (λ diff, diff = d) (positiveDiffs chartData)))%nat →
  stepMinutes chartData =
    if (d + 30000) / 60000 =? 0 then 60 else (d + 30000) / 60000.
Proof.
  intros Hlen Hmajority.
  assert (positiveDiffs chartData ≠ []) as Hne.
  { intros Hnil. rewrite Hnil in Hmajority. simpl in Hmajority. lia. }
  destruct (stepMinutes_median chartData Hlen Hne) as (median & Hmedian & _ & ->).
  rewrite (majority_median _ d (sortedDiffs_sorted chartData)) in Hmedian.
  - by injection Hmedian as <-.
  - by rewrite (sortedDiffs_Permutation chartData).
Qed.

Lemma stepMinutes_majority_witness :
  stepMinutes (gappy ++ [point 1705284000000 "2024-01-15" 3]) = 60.
Proof.
  apply (stepMinutes_majority
           (gappy ++ [point 1705284000000 "2024-01-15" 3]) 3600000).
  - simpl. lia.
  - vm_compute. lia.
Defined.

Lemma sorted_strictly_by_time (points : list ChartDatum) :
  StronglySorted byTime points → NoDup (timestamp <$> points) →
  StronglySorted (λ a b, timestamp a < timestamp b) points.
Proof.
  induction 1 as [|a points _ IH Ha]; intros Hdup; constructor.
  - apply IH. by apply NoDup_cons in Hdup as [_ ?].
  - apply Forall_forall. intros b Hb.
    apply NoDup_cons in Hdup as [Hfresh _].
    pose proof (proj1 (Forall_forall _ _) Ha b Hb) as Hab.
    unfold byTime in Hab.
    destruct (decide (timestamp a = timestamp b)) as [Heq|]; [|lia].
    destruct Hfresh. rewrite Heq. by apply list_elem_of_fmap_2.
Qed.

Section order.
Context `{Runtime}.

(** Extra X12.  When the usable records have pairwise distinct timestamps,
    the chart series does not depend on the order in which the records
    arrive. *)
Theorem chartData_order_independent (data data' : list (option SpotPrice))
    (useTax : bool) (valueMultiplier : Q) :
  data ≡ₚ data' →
  NoDup (timestamp <$> omap (toDatum useTax valueMultiplier) data) →
  chartData (Some data) useTax valueMultiplier
  = chartData (Some data') useTax valueMultiplier.
Proof.
  intros Hperm Hdup. unfold chartData. simpl.
  set (points := omap (toDatum useTax valueMultiplier) data) in *.
  set (points' := omap (toDatum useTax valueMultiplier) data').
  assert (points ≡ₚ points') as Hpoints by (by apply omap_Permutation).
  set (compare := λ a b : ChartDatum, signZ (timestamp a - timestamp b)).
  assert (sort compare points ≡ₚ sort compare points') as Hsorted.
  { by rewrite !sort_Permutation. }
  apply (StronglySorted_unique_strong
           (λ a b, timestamp a < timestamp b)); [| | |done].
  - intros a b _ _ ??. lia.
  - apply sorted_strictly_by_time; [apply (sort_by_Z_sorted timestamp)|].
    by rewrite sort_Permutation.
  - apply sorted_strictly_by_time; [apply (sort_by_Z_sorted timestamp)|].
    by rewrite sort_Permutation, <- Hpoints.
Qed.
End order.

Lemma chartData_order_independent_witness :
  @chartData helsinki (Some (tuesday ++ monday)) true 100
  = @chartData helsinki (Some (monday ++ tuesday)) true 100.
Proof.
  apply (@chartData_order_independent helsinki (tuesday ++ monday)
           (monday ++ tuesday) true 100).
  - apply Permutation_app_comm.
  - apply (bool_decide_unpack _). by vm_compute.
Defined.

(** ** What the proxy forwards *)

Lemma numberToString_15_60 (n : number) :
  includes [15; 60] n = true →
  numberToString n = "15"%string ∨ numberToString n = "60"%string.
Proof.
  destruct n as [| |q]; try done. simpl.
  rewrite orb_false_r. intros [Hq|Hq]%orb_true_iff;
    apply Qeq_bool_iff in Hq; rewrite (Qfloor_comp _ _ Hq), Qfloor_Z;
    [by left|by right].
Qed.

Lemma numberToString_1_6 (n : number) :
  isInteger n = true → lessThan n 1 = false → greaterThan n 6 = false →
  numberToString n ∈ ["1"; "2"; "3"; "4"; "5"; "6"]%string.
Proof.
  destruct n as [| |q]; try done. simpl. intros _ Hlow Hhigh.
  apply negb_false_iff, Qle_bool_iff in Hlow, Hhigh.
  apply Qfloor_resp_le in Hlow, Hhigh. rewrite Qfloor_Z in Hlow, Hhigh.
  assert (Qfloor q ∈ seqZ 1 6) as Hcases by (apply elem_of_seqZ; lia).
  revert Hcases. generalize (Qfloor q). intros hours Hcases.
  vm_compute in Hcases.
  repeat (apply elem_of_cons in Hcases as [->|Hcases];
          [vm_compute; repeat constructor|]).
  by apply not_elem_of_nil in Hcases.
Qed.

Lemma set_fresh (name value : string) (params : list (string * string)) :
  name ∉ params.*1 → set name value params = params ++ [(name, value)].
Proof.
  induction params as [|[key value'] params IH]; intros Hfresh; [done|].
  simpl in *. apply not_elem_of_cons in Hfresh as [Hne Hfresh].
  rewrite decide_False by done. by rewrite IH.
Qed.

Lemma get_app (name : string) (params params' : list (string * string)) :
  get name (params ++ params')
  = match get name params with
    | Some value => Some value
    | None => get name params'
    end.
Proof.
  induction params as [|[key value] params IH]; [done|]. simpl.
  destruct (decide (key = name)) as [->|Hne].
  - by rewrite !get_cons_eq.
  - by rewrite !get_cons_ne.
Qed.

Lemma get_optional (name key : string) (value : option string) :
  get name (pair key <$> option_list value)
  = if decide (name = key) then value else None.
Proof.
  destruct value as [value|]; simpl; [|by destruct (decide _)].
  destruct (decide (name = key)) as [->|Hne].
  - apply get_cons_eq.
  - by rewrite get_cons_ne.
Qed.

Lemma optional_fresh (name key : string) (value : option string) :
  name ≠ key → name ∉ (pair key <$> option_list value).*1.
Proof.
  intros Hne. destruct value; simpl; [|apply not_elem_of_nil].
  apply not_elem_of_cons. split; [done|apply not_elem_of_nil].
Qed.

Section forwarding.
Context `{Host}.

Lemma toUpperCase_nil : toUpperCase "" = ""%string.
Proof. by rewrite toUpperCase_ascii. Qed.

Lemma toLowerCase_nil : toLowerCase "" = ""%string.
Proof. by rewrite toLowerCase_ascii. Qed.

Lemma forwardRegion_app (searchParams : list (string * string)) :
  forwardRegion searchParams []
  = pair "region"%string
      <$> option_list (toUpperCase <$> truthy (get "region" searchParams)).
Proof.
  unfold forwardRegion. by destruct (truthy (get "region" searchParams)).
Qed.

Lemma checkPriceResolution_app
    (searchParams upstreamParams upstreamParams' : list (string * string)) :
  "priceResolution"%string ∉ upstreamParams.*1 →
  checkPriceResolution searchParams upstreamParams
  = Continue upstreamParams' →
  upstreamParams'
  = upstreamParams
    ++ (pair "priceResolution"%string
          <$> option_list ((λ value, numberToString (Number value))
                             <$> truthy (get "priceResolution"
                                           searchParams)))
  ∧ ∀ value, truthy (get "priceResolution" searchParams) = Some value →
             includes [15; 60] (Number value) = true.
Proof.
  intros Hfresh. unfold checkPriceResolution.
  destruct (truthy (get "priceResolution" searchParams)) as [value|].
  - destruct (includes [15; 60] (Number value)) eqn:Hvalid; [|done].
    simpl. intros [= <-]. split; [by apply set_fresh|].
    by intros ? [= <-].
  - intros [= <-]. simpl. by rewrite app_nil_r.
Qed.

Lemma checkLookForwardHours_app
    (searchParams upstreamParams upstreamParams' : list (string * string)) :
  "lookForwardHours"%string ∉ upstreamParams.*1 →
  checkLookForwardHours searchParams upstreamParams
  = Continue upstreamParams' →
  upstreamParams'
  = upstreamParams
    ++ (pair "lookForwardHours"%string
          <$> option_list ((λ value, numberToString (Number value))
                             <$> truthy (get "lookForwardHours"
                                           searchParams)))
  ∧ ∀ value, truthy (get "lookForwardHours" searchParams) = Some value →
             isInteger (Number value) = true
             ∧ lessThan (Number value) 1 = false
             ∧ greaterThan (Number value) 6 = false.
Proof.
  intros Hfresh. unfold checkLookForwardHours.
  destruct (truthy (get "lookForwardHours" searchParams)) as [value|].
  - destruct (isInteger (Number value)) eqn:Hint,
      (lessThan (Number value) 1) eqn:Hlt,
      (greaterThan (Number value) 6) eqn:Hgt; try done.
    simpl. intros [= <-]. split; [by apply set_fresh|].
    by intros ? [= <-].
  - intros [= <-]. simpl. by rewrite app_nil_r.
Qed.

Lemma forwardFlag_app (name : string)
    (searchParams upstreamParams : list (string * string)) :
  name ∉ upstreamParams.*1 →
  forwardFlag name searchParams upstreamParams
  = upstreamParams
    ++ (pair name <$> option_list (forwardedFlag (get name searchParams))).
Proof.
  intros Hfresh. unfold forwardFlag, forwardedFlag.
  destruct (get name searchParams) as [flag|];
    [|by rewrite app_nil_r].
  destruct (bool_decide (flag = "true"%string)
            || bool_decide (flag = "false"%string));
    [|by rewrite app_nil_r].
  by apply set_fresh.
Qed.

Lemma forwardedFlag_Some (flag : option string) (value : string) :
  forwardedFlag flag = Some value →
  flag = Some value ∧ (value = "true"%string ∨ value = "false"%string).
Proof.
  unfold forwardedFlag. destruct flag as [flag|]; [|done].
  destruct (bool_decide_reflect (flag = "true"%string)) as [->|];
    [intros [= <-]; by auto|].
  destruct (bool_decide_reflect (flag = "false"%string)) as [->|];
    [intros [= <-]; by auto|done].
Qed.

(** Extra X13.  When the handler fetches, the upstream query holds the
    accepted parameters and nothing else, each at most once and in one
    fixed order: region, priceResolution, lookForwardHours, HomeAssistant,
    HomeAssistant15Min.  The region is the upper-case form, as the host
    maps it, of the non-empty region that was given, and is not empty; the
    numbers are rewritten to plain numerals (15 or 60; 1 to 6) and a flag
    is the string true or false. *)
Theorem upstreamRequest_search (searchParams : list (string * string))
    (upstreamUrl : URL) :
  upstreamRequest searchParams = Continue upstreamUrl →
  search upstreamUrl
  = (pair "region"%string
       <$> option_list (toUpperCase
                          <$> truthy (get "region" searchParams)))
    ++ (pair "priceResolution"%string
          <$> option_list ((λ value, numberToString (Number value))
                             <$> truthy (get "priceResolution"
                                           searchParams)))
    ++ (pair "lookForwardHours"%string
          <$> option_list ((λ value, numberToString (Number value))
                             <$> truthy (get "lookForwardHours"
                                           searchParams)))
    ++ (pair "HomeAssistant"%string
          <$> option_list (forwardedFlag (get "HomeAssistant" searchParams)))
    ++ (pair "HomeAssistant15Min"%string
          <$> option_list (forwardedFlag
                             (get "HomeAssistant15Min" searchParams)))
  ∧ (∀ value, get "region" (search upstreamUrl) = Some value →
              value ≠ ""%string
              ∧ ∃ given, get "region" searchParams = Some given
                         ∧ given ≠ ""%string
                         ∧ value = toUpperCase given)
  ∧ (∀ value, get "priceResolution" (search upstreamUrl) = Some value →
              value = "15"%string ∨ value = "60"%string)
  ∧ (∀ value, get "lookForwardHours" (search upstreamUrl) = Some value →
              value ∈ ["1"; "2"; "3"; "4"; "5"; "6"]%string)
  ∧ (∀ name value,
       name = "HomeAssistant"%string ∨ name = "HomeAssistant15Min"%string →
       get name (search upstreamUrl) = Some value →
       value = "true"%string ∨ value = "false"%string).
Proof.
  unfold upstreamRequest, checkType.
  destruct (resolveType (get "type" searchParams)) as [type|]; [|done].
  cbn [bind]. rewrite forwardRegion_app.
  set (region := toUpperCase <$> truthy (get "region" searchParams)).
  destruct (checkPriceResolution searchParams _) as [|params1] eqn:Hstep1;
    [done|].
  apply checkPriceResolution_app in Hstep1 as [-> Hresolution];
    [|rewrite ?fmap_app, ?not_elem_of_app; repeat split;
      by apply optional_fresh].
  set (resolution := (λ value, numberToString (Number value))
                       <$> truthy (get "priceResolution" searchParams)).
  cbn [bind].
  destruct (checkLookForwardHours searchParams _) as [|params2] eqn:Hstep2;
    [done|].
  apply checkLookForwardHours_app in Hstep2 as [-> Hhours];
    [|rewrite ?fmap_app, ?not_elem_of_app; repeat split;
      by apply optional_fresh].
  set (hours := (λ value, numberToString (Number value))
                  <$> truthy (get "lookForwardHours" searchParams)).
  cbn [bind].
  rewrite (forwardFlag_app "HomeAssistant")
    by (rewrite ?fmap_app, ?not_elem_of_app; repeat split;
        by apply optional_fresh).
  set (flag := forwardedFlag (get "HomeAssistant" searchParams)).
  rewrite (forwardFlag_app "HomeAssistant15Min")
    by (rewrite ?fmap_app, ?not_elem_of_app; repeat split;
        by apply optional_fresh).
  set (flag15 := forwardedFlag (get "HomeAssistant15Min" searchParams)).
  intros [= <-]. cbn [search].
  split; [by rewrite <- !(assoc_L (++))|].
  split; [|split; [|split]].
  - intros value. rewrite !get_app, !get_optional. simpl.
    unfold region.
    destruct (truthy (get "region" searchParams)) as [given|] eqn:Hgiven;
      [|by destruct resolution, hours].
    intros [= <-].
    assert (get "region" searchParams = Some given ∧ given ≠ ""%string)
      as [Hget Hne].
    { by destruct (get "region" searchParams) as [[|??]|];
        simplify_eq/=. }
    split; [by intros ?%toUpperCase_empty|]. by exists given.
  - intros value. rewrite !get_app, !get_optional. simpl.
    unfold resolution.
    destruct (truthy (get "priceResolution" searchParams)) as [given|];
      [|done].
    intros [= <-]. by apply numberToString_15_60, Hresolution.
  - intros value. rewrite !get_app, !get_optional. simpl.
    destruct resolution; simpl; unfold hours.
    all: destruct (truthy (get "lookForwardHours" searchParams))
           as [given|]; [|done].
    all: intros [= <-]; destruct (Hhours given eq_refl) as (? & ? & ?).
    all: by apply numberToString_1_6.
  - intros name value [-> | ->]; rewrite !get_app, !get_optional; simpl.
    + destruct resolution, hours; simpl.
      all: destruct flag eqn:Hflag; intros [= <-].
      all: by apply forwardedFlag_Some in Hflag as [_ ?].
    + destruct resolution, hours, flag; simpl.
      all: destruct flag15 eqn:Hflag; intros [= <-].
      all: by apply forwardedFlag_Some in Hflag as [_ ?].
Qed.
End forwarding.

Lemma upstreamRequest_search_witness :
  @upstreamRequest (hostAnswering (FetchResponse 200 None (Some "[]")))
    [("priceResolution", "60"); ("extra", "1"); ("region", "fi");
     ("region", "se1")]
  = Continue {| origin := BASE_URL; pathname := "/Today";
                search := [("region", "FI"); ("priceResolution", "60")] |}
  ∧ search {| origin := BASE_URL; pathname := "/Today";
              search := [("region", "FI"); ("priceResolution", "60")] |}
    = [("region", "FI"); ("priceResolution", "60")].
Proof.
  split; [reflexivity|].
  exact (proj1 (@upstreamRequest_search
                  (hostAnswering (FetchResponse 200 None (Some "[]")))
                  [("priceResolution", "60"); ("extra", "1");
                   ("region", "fi"); ("region", "se1")]
                  {| origin := BASE_URL; pathname := "/Today";
                     search := [("region", "FI");
                                ("priceResolution", "60")] |}
                  eq_refl)).
Defined.

(** ** What the answer depends on *)

Section dependence.
Context `{Host}.

Lemma resolveType_lower (value value' : option string) :
  toLowerCase <$> value = toLowerCase <$> value' →
  resolveType value = resolveType value'.
Proof.
  unfold resolveType.
  destruct value as [[|c s]|], value' as [[|c' s']|]; try done.
  - intros [= Hlower]. rewrite toLowerCase_nil in Hlower.
    symmetry in Hlower. by apply toLowerCase_empty in Hlower.
  - intros [= Hlower]. rewrite toLowerCase_nil in Hlower.
    by apply toLowerCase_empty in Hlower.
  - intros [= Hlower]. cbn [truthy]. by rewrite Hlower.
Qed.

(** Extra X14.  The answer depends on the first value of each of the six
    parameters the handler reads, and on nothing else in the query; the
    letter case of the type and of the region does not matter. *)
Theorem GET_depends_on (searchParams searchParams' : list (string * string)) :
  toLowerCase <$> get "type" searchParams
  = toLowerCase <$> get "type" searchParams' →
  toUpperCase <$> get "region" searchParams
  = toUpperCase <$> get "region" searchParams' →
  (∀ name,
     name ∈ ["priceResolution"; "lookForwardHours"; "HomeAssistant";
             "HomeAssistant15Min"]%string →
     get name searchParams = get name searchParams') →
  GET searchParams = GET searchParams'.
Proof.
  intros Htype Hregion Hrest.
  unfold GET, upstreamRequest, checkType, forwardRegion,
    checkPriceResolution, checkLookForwardHours, forwardFlag.
  rewrite (resolveType_lower _ _ Htype).
  rewrite !(Hrest "priceResolution"%string), !(Hrest "lookForwardHours"%string),
    !(Hrest "HomeAssistant"%string), !(Hrest "HomeAssistant15Min"%string)
    by (repeat constructor).
  assert (toUpperCase <$> truthy (get "region" searchParams)
          = toUpperCase <$> truthy (get "region" searchParams')) as Hupper.
  { destruct (get "region" searchParams) as [[|c s]|],
      (get "region" searchParams') as [[|c' s']|]; try done.
    - injection Hregion as Hregion. rewrite toUpperCase_nil in Hregion.
      symmetry in Hregion. by apply toUpperCase_empty in Hregion.
    - injection Hregion as Hregion. rewrite toUpperCase_nil in Hregion.
      by apply toUpperCase_empty in Hregion. }
  destruct (truthy (get "region" searchParams)) as [region|],
    (truthy (get "region" searchParams')) as [region'|]; try done.
  simpl in Hupper. injection Hupper as Hupper. by rewrite Hupper.
Qed.

(** Extra X15.  Every answer has a status from 200 to 599 other than 204,
    205 and 304.  An error body of the handler's own comes with status 400
    or 502, as JSON and without a cache header; the cache header is set
    exactly on the answers with a status from 200 to 299, and then with a
    shared lifetime of [CACHE_SECONDS]. *)
Theorem GET_response_shape (searchParams : list (string * string)) :
  let response := GET searchParams in
  responseInitOk (status response) = true
  ∧ (∀ error, body response = Json_error error →
       (status response = 400 ∨ status response = 502)
       ∧ contentType response = "application/json"%string
       ∧ cacheControl response = None)
  ∧ (is_Some (cacheControl response) ↔ 200 <= status response <= 299)
  ∧ (∀ value, cacheControl response = Some value →
       value = "public, s-maxage=60, stale-while-revalidate=300"%string).
Proof.
  simpl. unfold GET.
  destruct (upstreamRequest_spec searchParams)
    as [[_ [error ->]]|(_ & upstreamUrl & -> & _)].
  { simpl. split; [done|]. split; [by auto|].
    split; [|done]. split; [by intros [? ?]|lia]. }
  unfold passThrough, upstreamFailed.
  destruct (fetch upstreamUrl) as [|code type [text|]].
  1,3: simpl; split; [done|]; split; [by auto|];
       split; [|done]; split; [by intros [? ?]|lia].
  destruct (responseInitOk code) eqn:Hcode.
  2: { simpl. split; [done|]. split; [by auto|].
       split; [|done]. split; [by intros [? ?]|lia]. }
  simpl. split; [done|]. split; [done|].
  destruct (Z.leb_spec 200 code), (Z.leb_spec code 299); simpl.
  all: split; [split; [intros [? ?]; try done; lia|intros ?; try lia; by eexists]|].
  all: by intros ? [= <-].
Qed.
End dependence.

Lemma GET_depends_on_witness :
  @GET (hostAnswering (FetchResponse 200 None (Some "[]")))
       [("type", "TODAY"); ("region", "fi"); ("extra", "1")]
  = @GET (hostAnswering (FetchResponse 200 None (Some "[]")))
         [("region", "FI"); ("type", "today"); ("region", "se1")].
Proof.
  apply (@GET_depends_on (hostAnswering (FetchResponse 200 None (Some "[]")))
           [("type", "TODAY"); ("region", "fi"); ("extra", "1")]
           [("region", "FI"); ("type", "today"); ("region", "se1")]).
  - reflexivity.
  - reflexivity.
  - intros name Hname.
    repeat (apply elem_of_cons in Hname as [->|Hname]; [reflexivity|]).
    by apply not_elem_of_nil in Hname.
Defined.

(** ** Points per hour *)

(** Extra X16.  For an interval that divides the hour, [pointsPerHour] is
    the number of intervals in an hour, so the limits of the cheap and the
    middle tier are six and twelve hours of points; for intervals of more
    than 40 minutes it is 1. *)
Theorem pointsPerHour_divisor (stepMinutes : Z) :
  0 < stepMinutes →
  ((stepMinutes | 60) → pointsPerHour stepMinutes * stepMinutes = 60)
  ∧ (40 < stepMinutes → pointsPerHour stepMinutes = 1).
Proof.
  intros Hpos. rewrite pointsPerHour_eq by done. split.
  - intros Hdiv.
    assert (stepMinutes <= 60) as Hle by (apply Z.divide_pos_le; [lia|done]).
    apply Z.mod_divide in Hdiv; [|lia].
    assert (stepMinutes ∈ seqZ 1 60) as Hcases by (apply elem_of_seqZ; lia).
    clear Hpos Hle. vm_compute in Hcases.
    repeat (apply elem_of_cons in Hcases as [->|Hcases];
            [first [reflexivity | by vm_compute in Hdiv]|]).
    by apply not_elem_of_nil in Hcases.
  - intros Hlarge.
    assert ((120 + stepMinutes) / (2 * stepMinutes) < 2); [|lia].
    apply Z.div_lt_upper_bound; lia.
Qed.

Lemma pointsPerHour_divisor_witness : pointsPerHour 15 * 15 = 60.
Proof.
  apply (pointsPerHour_divisor 15); [lia|]. by exists 4.
Defined.

(** ** The page *)

Section page_requests.
Context `{Host}.

(** Extra X17.  Whatever the selects of the page hold, its two requests
    pass the checks of the route, on a host whose [Number] reads the two
    resolutions as 15 and 60: the upstream is asked for the selected
    endpoint with the selected region and resolution and nothing else. *)
Theorem page_request_accepted (region priceResolution type : string) :
  Number "15" = Finite 15 → Number "60" = Finite 60 →
  region ∈ REGION_OPTIONS →
  priceResolution ∈ RESOLUTION_OPTIONS.*1 →
  type ∈ ["todayAndDayForward"; "today"]%string →
  upstreamRequest (spotQuery type (buildSpotQuery region priceResolution))
  = Continue
      {| origin := BASE_URL;
         pathname := if decide (type = "today"%string)
                     then "/Today" else "/TodayAndDayForward";
         search := [("region", region);
                    ("priceResolution", priceResolution)] |}.
Proof.
  intros H15 H60 Hregion Hresolution Htype.
  assert (region ≠ ""%string ∧ toUpperCase region = region) as [Hne Hupper].
  { assert (region ≠ ""%string ∧ isAscii region = true
            ∧ Js.toUpperCase region = region) as (? & Hascii & Hsame).
    { revert Hregion. generalize region. apply Forall_forall.
      unfold REGION_OPTIONS. by repeat constructor. }
    split; [done|]. by rewrite toUpperCase_ascii. }
  assert (get "type" (spotQuery type (buildSpotQuery region priceResolution))
          = Some type) as Htype' by apply get_cons_eq.
  assert (get "region"
            (spotQuery type (buildSpotQuery region priceResolution))
          = Some region) as Hregion' by reflexivity.
  assert (get "priceResolution"
            (spotQuery type (buildSpotQuery region priceResolution))
          = Some priceResolution) as Hresolution' by reflexivity.
  assert (∀ name, name ∉ ["type"; "region"; "priceResolution"]%string →
            get name (spotQuery type (buildSpotQuery region priceResolution))
            = None) as Hother.
  { intros name Hname. unfold spotQuery, buildSpotQuery. simpl.
    rewrite !get_cons_ne; [done|..]; intros <-; apply Hname;
      repeat constructor. }
  unfold upstreamRequest, checkType, resolveType, forwardRegion,
    checkPriceResolution, checkLookForwardHours, forwardFlag.
  rewrite Htype', Hregion', Hresolution'.
  rewrite !Hother by (by intros ?%(bool_decide_pack _)).
  destruct region as [|c region]; [done|]. cbn [truthy]. rewrite Hupper.
  simpl in Hresolution.
  apply elem_of_cons in Htype as [->|Htype];
    [|apply elem_of_cons in Htype as [->|Htype];
      [|by apply not_elem_of_nil in Htype]].
  all: apply elem_of_cons in Hresolution as [->|Hresolution];
    [|apply elem_of_cons in Hresolution as [->|Hresolution];
      [|by apply not_elem_of_nil in Hresolution]].
  all: cbn [truthy]; rewrite toLowerCase_ascii by reflexivity.
  all: cbn; rewrite ?H15, ?H60; reflexivity.
Qed.
End page_requests.

Lemma page_request_accepted_witness :
  @upstreamRequest (hostAnswering FetchThrows)
    (spotQuery "today" (buildSpotQuery "SE3" "15"))
  = Continue {| origin := BASE_URL; pathname := "/Today";
                search := [("region", "SE3"); ("priceResolution", "15")] |}.
Proof.
  apply (@page_request_accepted (hostAnswering FetchThrows)
           "SE3" "15" "today").
  - reflexivity.
  - reflexivity.
  - by apply (bool_decide_unpack _).
  - by apply (bool_decide_unpack _).
  - by apply (bool_decide_unpack _).
Defined.

(** ** Loading the prices *)

Section error_message.
Context `{StringRuntime}.

(** Extra X18.  Blank is what [trim] leaves empty, as the runtime has it.
    With a fallback text that is not blank, the error message is not blank
    either; it is the fallback unless the payload is a non-blank string or
    carries a non-blank string as its [error]. *)
Theorem getErrorMessage_not_blank (payload : Json) (fallback : string) :
  isBlank fallback = false →
  isBlank (getErrorMessage payload fallback) = false
  ∧ (getErrorMessage payload fallback ≠ fallback →
     payload = JString (getErrorMessage payload fallback)
     ∨ ∃ fields,
         payload = JObject fields
         ∧ property "error" fields
           = Some (JString (getErrorMessage payload fallback))).
Proof.
  intros Hfallback. unfold getErrorMessage.
  destruct payload as [| | |text| |fields]; try done.
  - destruct (isBlank text) eqn:Htext; simpl; [done|].
    split; [done|]. by left.
  - destruct (property "error" fields) as [[| | |errorValue| |]|] eqn:Herror;
      try done.
    destruct (isBlank errorValue) eqn:Hblank; simpl; [done|].
    split; [done|]. intros _. right. by exists fields.
Qed.

End error_message.

Lemma getErrorMessage_not_blank_witness :
  @isBlank asciiStrings
    (@getErrorMessage asciiStrings
       (JObject [("error", JString "priceResolution must be 15 or 60.")])
       "Bad Request") = false.
Proof.
  apply (@getErrorMessage_not_blank asciiStrings
           (JObject [("error", JString "priceResolution must be 15 or 60.")])
           "Bad Request").
  reflexivity.
Defined.

Section page_state.
Context `{StringRuntime}.

(** Extra X19.  After [loadPrices], the loading flag is down unless the
    request was aborted; an error is never shown together with data; and
    neither the error nor the flag from before the call makes a
    difference. *)
Theorem loadPrices_invariants (fetchSpot : string → SpotResult)
    (aborted : bool) (state : PageState) :
  let state' := loadPrices fetchSpot aborted state in
  (aborted = false → isLoading state' = false)
  ∧ (is_Some (error state') → data state' = [])
  ∧ (∀ stale loading,
       loadPrices fetchSpot aborted
         (setError stale (setIsLoading loading state))
       = state').
Proof.
  simpl. unfold loadPrices.
  destruct (fetchSpot "todayAndDayForward")
    as [| |status statusText payload];
    [| |destruct (ok status);
        [|destruct (status =? 404);
          [destruct (fetchSpot "today") as [| |status' statusText' payload'];
           [| |destruct (ok status')]|]]].
  all: split; [by intros ->|].
  all: split; [destruct aborted; by intros [? ?]|done].
Qed.

(** Extra X20.  The fallback request for today is made only after the
    first request was answered with 404: otherwise its outcome makes no
    difference.  After a 404, a successful fallback supplies the data and
    leaves no error; a failed one leaves its error and no data. *)
Theorem loadPrices_fallback (fetchSpot : string → SpotResult)
    (aborted : bool) (state : PageState) :
  ((∀ statusText payload,
      fetchSpot "todayAndDayForward" ≠ Answered 404 statusText payload) →
   ∀ fetchSpot',
     fetchSpot' "todayAndDayForward" = fetchSpot "todayAndDayForward" →
     loadPrices fetchSpot' aborted state = loadPrices fetchSpot aborted state)
  ∧ (∀ statusText payload status' statusText' payload',
       fetchSpot "todayAndDayForward" = Answered 404 statusText payload →
       fetchSpot "today" = Answered status' statusText' payload' →
       let state' := loadPrices fetchSpot aborted state in
       if ok status'
       then data state' = normalizePayload payload' ∧ error state' = None
       else data state' = []
            ∧ error state' = Some (getErrorMessage payload' statusText')).
Proof.
  split.
  - intros Hprimary fetchSpot' Hsame. unfold loadPrices. rewrite Hsame.
    destruct (fetchSpot "todayAndDayForward")
      as [| |status statusText payload]; try done.
    destruct (ok status); [done|].
    destruct (Z.eqb_spec status 404) as [->|]; [|done].
    by destruct (Hprimary statusText payload).
  - intros statusText payload status' statusText' payload' Hprimary Hfallback.
    simpl. unfold loadPrices. rewrite Hprimary, Hfallback. simpl.
    by destruct (ok status'), aborted.
Qed.
End page_state.
